(** * Alert-tasker: the task/category state container and its derived views

    A shallow embedding of [src/models/Task.ts], of the state container
    [TaskProvider] of [src/contexts/TaskContext.tsx] (lines 28-146) and of
    the derived view builder, the component [TaskManager] that follows it in
    the same source file (lines 176-275), followed by the properties the
    specification states about them.  Line numbers are those of
    [src/contexts/TaskContext.tsx].

    The components that call the container are embedded after it: the
    status button of [src/components/TaskCard.tsx], the form of
    [src/components/TaskForm.tsx] and the category form of
    [src/pages/Categories.tsx], with the provider's loading of both
    collections and the column titles of [TaskManager]; their properties
    close the development.

    Conventions of the embedding.
    - A JavaScript [Date] is its time value: an integral number of
      milliseconds since the epoch, or NaN for an invalid date.
    - An optional property ([description?], [dueDate?], [categoryId?]) is an
      [option]; [None] is JavaScript's [undefined].
    - The two sources of outside input the container draws on, the clock
      behind [new Date()] and the generator behind [uuidv4()], are oracles
      indexed by the number of calls made so far; that number is part of the
      state.
    - A [Record<string, Task[]>] is a finite map from strings to lists. *)

From Stdlib Require Import ZArith Lia String Ascii List Bool.
From stdpp Require Import base option list strings gmap.

Local Open Scope Z_scope.

(** ** Data model ([src/models/Task.ts]) *)

Inductive Priority : Set := low | medium | high.
Inductive Status : Set := todo | in_progress | completed.

(** The string literal each member of the two unions is at run time. *)
Definition Priority_str (p : Priority) : string :=
  match p with low => "low" | medium => "medium" | high => "high" end.

Definition Status_str (s : Status) : string :=
  match s with
  | todo => "todo" | in_progress => "in-progress" | completed => "completed"
  end.

(** A [Date] object: a time value in milliseconds, or the invalid date. *)
Inductive Date : Set :=
  | ValidDate (t : Z)
  | InvalidDate.

Definition maxTime : Z := 8640000000000000.

(** ECMAScript's TimeClip: time values beyond 8.64e15 ms are not dates. *)
Definition TimeClip (t : Z) : Date :=
  if (Z.abs t <=? maxTime) then ValidDate t else InvalidDate.

Definition Date_valid (d : Date) : Prop :=
  match d with
  | ValidDate t => Z.abs t <= maxTime
  | InvalidDate => False
  end.

Module Task.
Record t : Set := mk {
  id : string;
  title : string;
  description : option string;
  createdAt : Date;
  updatedAt : Date;
  dueDate : option Date;
  priority : Priority;
  status : Status;
  categoryId : option string
}.
End Task.

Module Category.
Record t : Set := mk {
  id : string;
  name : string;
  color : string
}.
End Category.

(** [Omit<Task, 'id' | 'createdAt' | 'updatedAt'>], the argument of
    [addTask]. *)
Module NewTask.
Record t : Set := mk {
  title : string;
  description : option string;
  dueDate : option Date;
  priority : Priority;
  status : Status;
  categoryId : option string
}.
End NewTask.

(** [Partial<Task>], the argument of [updateTask].  A property the patch
    does not have is [None].  For the three optional properties of [Task] the
    patch may also carry the property with the value [undefined] (the form
    passes [description: description || undefined]): that is [Some None].
    A required property set to [undefined] would not give a [Task] back and
    is not represented. *)
Module Patch.
Record t : Set := mk {
  id : option string;
  title : option string;
  description : option (option string);
  createdAt : option Date;
  updatedAt : option Date;
  dueDate : option (option Date);
  priority : option Priority;
  status : option Status;
  categoryId : option (option string)
}.
End Patch.

(** [Omit<Category, 'id'>] and [Partial<Category>]. *)
Module NewCategory.
Record t : Set := mk { name : string; color : string }.
End NewCategory.

Module CategoryPatch.
Record t : Set := mk {
  id : option string;
  name : option string;
  color : option string
}.
End CategoryPatch.

(** ** State container (component [TaskProvider], lines 28-146) *)

(** One property of [{ ...old, ...patch }]: the patch's value when the
    patch has the property, the old value otherwise. *)
Definition spread {A : Type} (old : A) (new : option A) : A :=
  match new with Some v => v | None => old end.

(** [{ ...task, ...updatedFields, updatedAt: now }] (line 79). *)
Definition mergeTask (task : Task.t) (updatedFields : Patch.t) (now : Date)
  : Task.t :=
  {| Task.id := spread (Task.id task) (Patch.id updatedFields);
     Task.title := spread (Task.title task) (Patch.title updatedFields);
     Task.description :=
       spread (Task.description task) (Patch.description updatedFields);
     Task.createdAt :=
       spread (Task.createdAt task) (Patch.createdAt updatedFields);
     Task.updatedAt := now;
     Task.dueDate := spread (Task.dueDate task) (Patch.dueDate updatedFields);
     Task.priority := spread (Task.priority task) (Patch.priority updatedFields);
     Task.status := spread (Task.status task) (Patch.status updatedFields);
     Task.categoryId :=
       spread (Task.categoryId task) (Patch.categoryId updatedFields) |}.

(** [{ ...category, ...updatedFields }] (line 105). *)
Definition mergeCategory (category : Category.t)
    (updatedFields : CategoryPatch.t) : Category.t :=
  {| Category.id :=
       spread (Category.id category) (CategoryPatch.id updatedFields);
     Category.name :=
       spread (Category.name category) (CategoryPatch.name updatedFields);
     Category.color :=
       spread (Category.color category) (CategoryPatch.color updatedFields) |}.

(** [{ ...task, categoryId: undefined }] (line 117). *)
Definition clearCategory (task : Task.t) : Task.t :=
  {| Task.id := Task.id task;
     Task.title := Task.title task;
     Task.description := Task.description task;
     Task.createdAt := Task.createdAt task;
     Task.updatedAt := Task.updatedAt task;
     Task.dueDate := Task.dueDate task;
     Task.priority := Task.priority task;
     Task.status := Task.status task;
     Task.categoryId := None |}.

(** The sample categories the provider starts from (lines 21-26). *)
Definition defaultCategories : list Category.t :=
  [ Category.mk "1" "Work" "#3b82f6";
    Category.mk "2" "Personal" "#10b981";
    Category.mk "3" "Shopping" "#f59e0b";
    Category.mk "4" "Health" "#ef4444" ].

(** A notification handed to the [sonner] toaster.  The container only ever
    calls [toast.success]. *)
Inductive Toast : Set :=
  | toast_success (message : string)
  | toast_error (message : string).

(** The provider's state: the two collections, the notifications raised so
    far, and how many times the clock and the identifier generator have been
    consulted. *)
Record State : Type := mkState {
  tasks : list Task.t;
  categories : list Category.t;
  toasts : list Toast;
  reads : nat;
  draws : nat
}.

Definition initialState : State := mkState [] defaultCategories [] 0%nat 0%nat.

Definition ids (l : list Task.t) : list string := map Task.id l.

Section Container.

(** [clock n] is the time value the [n]-th evaluation of [new Date()]
    returns; [uuidv4 n] the string the [n]-th call of [uuidv4()] returns. *)
Variable clock : nat -> Z.
Variable uuidv4 : nat -> string.

Definition newDate (n : nat) : Date := ValidDate (clock n).

(** The updater of [updateTask] (lines 77-81).  [new Date()] sits inside
    the callback of [map]: the clock is read once for every task whose id
    matches, so the number of reads is threaded through the traversal. *)
Fixpoint updateTask_map (id : string) (updatedFields : Patch.t)
    (prevTasks : list Task.t) (n : nat) : list Task.t * nat :=
  match prevTasks with
  | [] => ([], n)
  | task :: rest =>
      if String.eqb (Task.id task) id then
        let task' := mergeTask task updatedFields (newDate n) in
        let '(rest', n') := updateTask_map id updatedFields rest (S n) in
        (task' :: rest', n')
      else
        let '(rest', n') := updateTask_map id updatedFields rest n in
        (task :: rest', n')
  end.

(** The updater of [deleteTask] (line 87). *)
Definition deleteTask_filter (id : string) (prevTasks : list Task.t)
  : list Task.t :=
  List.filter (fun task => negb (String.eqb (Task.id task) id)) prevTasks.

(** [task.categoryId === id] (line 116): false for a task without the
    property. *)
Definition categoryId_is (id : string) (task : Task.t) : bool :=
  match Task.categoryId task with
  | Some c => String.eqb c id
  | None => false
  end.

(** The first updater of [deleteCategory] (lines 115-119). *)
Definition deleteCategory_map (id : string) (prevTasks : list Task.t)
  : list Task.t :=
  map (fun task => if categoryId_is id task then clearCategory task else task)
      prevTasks.

(** The second updater of [deleteCategory] (line 124). *)
Definition deleteCategory_filter (id : string)
    (prevCategories : list Category.t) : list Category.t :=
  List.filter (fun category => negb (String.eqb (Category.id category) id))
              prevCategories.

(** [addTask] (lines 63-73).  The object literal is evaluated left to
    right: one identifier is drawn, then the clock is read for [createdAt]
    and read again for [updatedAt]. *)
Definition addTask (task : NewTask.t) (s : State) : State :=
  let newTask :=
    {| Task.id := uuidv4 (draws s);
       Task.title := NewTask.title task;
       Task.description := NewTask.description task;
       Task.createdAt := newDate (reads s);
       Task.updatedAt := newDate (S (reads s));
       Task.dueDate := NewTask.dueDate task;
       Task.priority := NewTask.priority task;
       Task.status := NewTask.status task;
       Task.categoryId := NewTask.categoryId task |} in
  {| tasks := tasks s ++ [newTask];
     categories := categories s;
     toasts := toasts s ++ [toast_success "Task added successfully"];
     reads := S (S (reads s));
     draws := S (draws s) |}.

(** [updateTask] (lines 75-84). *)
Definition updateTask (id : string) (updatedFields : Patch.t) (s : State)
  : State :=
  let '(tasks', n') := updateTask_map id updatedFields (tasks s) (reads s) in
  {| tasks := tasks';
     categories := categories s;
     toasts := toasts s ++ [toast_success "Task updated successfully"];
     reads := n';
     draws := draws s |}.

(** [deleteTask] (lines 86-89). *)
Definition deleteTask (id : string) (s : State) : State :=
  {| tasks := deleteTask_filter id (tasks s);
     categories := categories s;
     toasts := toasts s ++ [toast_success "Task deleted successfully"];
     reads := reads s;
     draws := draws s |}.

(** [addCategory] (lines 91-99). *)
Definition addCategory (category : NewCategory.t) (s : State) : State :=
  let newCategory :=
    {| Category.id := uuidv4 (draws s);
       Category.name := NewCategory.name category;
       Category.color := NewCategory.color category |} in
  {| tasks := tasks s;
     categories := categories s ++ [newCategory];
     toasts := toasts s ++ [toast_success "Category added successfully"];
     reads := reads s;
     draws := S (draws s) |}.

(** [updateCategory] (lines 101-110). *)
Definition updateCategory (id : string) (updatedFields : CategoryPatch.t)
    (s : State) : State :=
  {| tasks := tasks s;
     categories :=
       map (fun category =>
              if String.eqb (Category.id category) id
              then mergeCategory category updatedFields
              else category)
           (categories s);
     toasts := toasts s ++ [toast_success "Category updated successfully"];
     reads := reads s;
     draws := draws s |}.

(** [deleteCategory] (lines 112-128). *)
Definition deleteCategory (id : string) (s : State) : State :=
  {| tasks := deleteCategory_map id (tasks s);
     categories := deleteCategory_filter id (categories s);
     toasts := toasts s ++ [toast_success "Category deleted successfully"];
     reads := reads s;
     draws := draws s |}.

(** The six operations the context exposes, as requests, and the
    container's reaction to one request. *)
Inductive Op : Type :=
  | AddTask (task : NewTask.t)
  | UpdateTask (id : string) (updatedFields : Patch.t)
  | DeleteTask (id : string)
  | AddCategory (category : NewCategory.t)
  | UpdateCategory (id : string) (updatedFields : CategoryPatch.t)
  | DeleteCategory (id : string).

Definition step (op : Op) (s : State) : State :=
  match op with
  | AddTask task => addTask task s
  | UpdateTask id updatedFields => updateTask id updatedFields s
  | DeleteTask id => deleteTask id s
  | AddCategory category => addCategory category s
  | UpdateCategory id updatedFields => updateCategory id updatedFields s
  | DeleteCategory id => deleteCategory id s
  end.

(** The states the container can be brought to from [s0] by requests that
    each satisfy [ok] in the state they are made in. *)
Inductive reachable (ok : Op -> State -> Prop) (s0 : State) : State -> Prop :=
  | reachable_refl : reachable ok s0 s0
  | reachable_step s op :
      reachable ok s0 s -> ok op s -> reachable ok s0 (step op s).

(** The generator hands [addTask] an identifier no task has. *)
Definition fresh_draw (op : Op) (s : State) : Prop :=
  match op with
  | AddTask _ => uuidv4 (draws s) ∉ ids (tasks s)
  | _ => True
  end.

(** The patch of an [updateTask] leaves the identifier alone: it has no
    [id], or the [id] of the task it is applied to. *)
Definition keeps_id (op : Op) : Prop :=
  match op with
  | UpdateTask id updatedFields => spread id (Patch.id updatedFields) = id
  | _ => True
  end.

End Container.

(** ** Derived view builder (component [TaskManager], lines 176-275) *)

(** *** Strings

    A string is a sequence of code units below 256: the Latin-1 range of
    JavaScript's 16-bit code units, a unit that is not an ASCII character
    being written by its number (["201"%char] is the letter E with an acute
    accent).  On these strings [String.prototype.toLowerCase] works unit by
    unit: the upper-case letters are A-Z (65-90) and the accented letters
    192-214 and 216-222 (215 is the multiplication sign), and the lower-case
    form of each is 32 units higher; every other unit is left as it is. *)
Definition toLowerCase_ascii (c : ascii) : ascii :=
  let n := nat_of_ascii c in
  if ((65 <=? n)%nat && (n <=? 90)%nat)
     || ((192 <=? n)%nat && (n <=? 222)%nat && negb (n =? 215)%nat)
  then ascii_of_nat (n + 32) else c.

Fixpoint toLowerCase (s : string) : string :=
  match s with
  | EmptyString => EmptyString
  | String c s' => String (toLowerCase_ascii c) (toLowerCase s')
  end.

(** [s.startsWith(sub)] and [s.includes(sub)]. *)
Fixpoint startsWith (s sub : string) : bool :=
  match sub, s with
  | EmptyString, _ => true
  | String _ _, EmptyString => false
  | String b sub', String a s' => Ascii.eqb a b && startsWith s' sub'
  end.

Fixpoint includes (s sub : string) : bool :=
  startsWith s sub ||
  match s with
  | EmptyString => false
  | String _ s' => includes s' sub
  end.

(** Truthiness of a value of type [string | undefined]: the empty string is
    falsy as [undefined] is. *)
Definition truthy (o : option string) : bool :=
  match o with
  | Some (String _ _) => true
  | Some EmptyString | None => false
  end.

(** *** Filtering (lines 187-208) *)

Definition matchesSearch (searchQuery : string) (task : Task.t) : bool :=
  String.eqb searchQuery "" ||
  includes (toLowerCase (Task.title task)) (toLowerCase searchQuery) ||
  match Task.description task with
  | Some d => includes (toLowerCase d) (toLowerCase searchQuery)
  | None => false
  end.

Definition matchesPriority (filterPriority : string) (task : Task.t) : bool :=
  String.eqb filterPriority "all" ||
  String.eqb (Priority_str (Task.priority task)) filterPriority.

Definition matchesCategory (filterCategory : string) (task : Task.t) : bool :=
  String.eqb filterCategory "all" ||
  (String.eqb filterCategory "none" && negb (truthy (Task.categoryId task))) ||
  match Task.categoryId task with
  | Some c => String.eqb c filterCategory
  | None => false
  end.

Definition filteredTasks (tasks : list Task.t)
    (searchQuery filterPriority filterCategory : string) : list Task.t :=
  List.filter
    (fun task =>
       matchesSearch searchQuery task &&
       matchesPriority filterPriority task &&
       matchesCategory filterCategory task)
    tasks.

(** *** Grouping (lines 211-275) *)

Inductive ViewMode : Set := board | category | calendar.

(** [result[key].push(task)] on a record that has the key. *)
Definition push (key : string) (task : Task.t)
    (result : gmap string (list Task.t)) : gmap string (list Task.t) :=
  alter (fun bucket => bucket ++ [task]) key result.

Definition has_status (s : Status) (t : Task.t) : bool :=
  String.eqb (Status_str (Task.status t)) (Status_str s).

(** Lines 214-218. *)
Definition groupByStatus (filteredTasks : list Task.t)
  : gmap string (list Task.t) :=
  <["todo" := List.filter (has_status todo) filteredTasks]>
  (<["in-progress" := List.filter (has_status in_progress) filteredTasks]>
  (<["completed" := List.filter (has_status completed) filteredTasks]> ∅)).

(** [task.categoryId || 'none'] (line 230). *)
Definition bucketKey (task : Task.t) : string :=
  match Task.categoryId task with
  | Some (String a s) => String a s
  | Some EmptyString | None => "none"
  end.

(** The property names a plain object inherits from [Object.prototype].
    At such a key [result[key]] is an inherited function or object and not
    [undefined], although [result] has no bucket there: line 231 then
    creates none and line 234 throws a [TypeError]; and
    [result['__proto__'] = []] on line 225 replaces the prototype instead
    of adding a bucket. *)
Definition Object_prototype : list string :=
  ["constructor"; "__proto__"; "hasOwnProperty"; "isPrototypeOf";
   "propertyIsEnumerable"; "toLocaleString"; "toString"; "valueOf";
   "__defineGetter__"; "__defineSetter__"; "__lookupGetter__";
   "__lookupSetter__"].

(** Lines 221-237.  The record is read and written at category identifiers;
    the finite map is the record of the code as long as these are ordinary
    keys, none of [Object_prototype]: the statements about the category
    mode assume so ([ordinary_keys]). *)
Definition groupByCategory (categories : list Category.t)
    (filteredTasks : list Task.t) : gmap string (list Task.t) :=
  let result : gmap string (list Task.t) := {["none" := []]} in
  let result :=
    fold_left (fun result cat => <[Category.id cat := []]> result)
              categories result in
  fold_left
    (fun result task =>
       let categoryId := bucketKey task in
       let result :=
         match result !! categoryId with
         | None => <[categoryId := []]> result
         | Some _ => result
         end in
       push categoryId task result)
    filteredTasks result.

Definition msPerDay : Z := 86400000.

Section Calendar.

(** The offset of local time from UTC in milliseconds.  The model's time
    zone has a fixed offset: no daylight-saving transitions. *)
Variable LocalTZA : Z.

(** [d.setHours(0, 0, 0, 0)]: the start of the local day of [d]. *)
Definition setHours0 (d : Date) : Date :=
  match d with
  | ValidDate t => TimeClip (t - (t + LocalTZA) mod msPerDay)
  | InvalidDate => InvalidDate
  end.

(** [d.setDate(d.getDate() + 1)]: the same local time on the next day. *)
Definition nextDay (d : Date) : Date :=
  match d with
  | ValidDate t => TimeClip (t + msPerDay)
  | InvalidDate => InvalidDate
  end.

(** [a < b] on dates compares the time values; a comparison with NaN is
    false.  [a.getTime() === b.getTime()] likewise. *)
Definition Date_ltb (a b : Date) : bool :=
  match a, b with
  | ValidDate x, ValidDate y => x <? y
  | _, _ => false
  end.

Definition getTime_eqb (a b : Date) : bool :=
  match a, b with
  | ValidDate x, ValidDate y => x =? y
  | _, _ => false
  end.

(** The key one task is pushed under (lines 255-270). *)
Definition dateBucket (today tomorrow : Date) (task : Task.t) : string :=
  match Task.dueDate task with
  | None => "no-date"
  | Some due =>
      let dueDate := setHours0 due in
      if Date_ltb dueDate today
         && negb (String.eqb (Status_str (Task.status task)) "completed")
      then "overdue"
      else if getTime_eqb dueDate today then "today"
      else if getTime_eqb dueDate tomorrow then "tomorrow"
      else "upcoming"
  end.

(** Lines 240-273; [now] is the time value [new Date()] returns on
    line 248. *)
Definition groupByDate (now : Z) (filteredTasks : list Task.t)
  : gmap string (list Task.t) :=
  let result : gmap string (list Task.t) :=
    <["overdue" := []]> (<["today" := []]> (<["tomorrow" := []]>
    (<["upcoming" := []]> (<["no-date" := []]> ∅)))) in
  let today := setHours0 (ValidDate now) in
  let tomorrow := nextDay today in
  fold_left
    (fun result task => push (dateBucket today tomorrow task) task result)
    filteredTasks result.

(** [groupedTasks] (lines 211-275). *)
Definition groupedTasks (viewMode : ViewMode) (now : Z)
    (categories : list Category.t) (filteredTasks : list Task.t)
  : gmap string (list Task.t) :=
  match viewMode with
  | board => groupByStatus filteredTasks
  | category => groupByCategory categories filteredTasks
  | calendar => groupByDate now filteredTasks
  end.

End Calendar.

(** ** Persistent store adapter ([TaskContext.tsx], lines 33-61)

    The text kept in local storage is represented by the JSON value it
    denotes: [JSON.stringify] is the translation of the collection into
    such a value, [JSON.parse] hands the same value back. *)

#[local] Set Warnings "-register-all".

Inductive JSON : Type :=
  | JNull
  | JString (s : string)
  | JArray (items : list JSON)
  | JObject (props : list (string * JSON)).

(** *** The date-time string format of [Date.prototype.toISOString] *)

(** The civil date (year, month 1-12, day 1-31) of a day number counted from
    1970-01-01 in the proleptic Gregorian calendar, and back.  Years are
    grouped in 400-year eras of 146097 days that start on 1 March. *)
Definition civil_from_days (day : Z) : Z * Z * Z :=
  let z := day + 719468 in
  let era := z / 146097 in
  let doe := z mod 146097 in
  let yoe := (doe - doe / 1460 + doe / 36524 - doe / 146096) / 365 in
  let doy := doe - (365 * yoe + yoe / 4 - yoe / 100) in
  let mp := (5 * doy + 2) / 153 in
  let d := doy - (153 * mp + 2) / 5 + 1 in
  let m := if mp <? 10 then mp + 3 else mp - 9 in
  let y := yoe + era * 400 in
  (if m <=? 2 then y + 1 else y, m, d).

Definition days_from_civil (y m d : Z) : Z :=
  let y := if m <=? 2 then y - 1 else y in
  let era := y / 400 in
  let yoe := y mod 400 in
  let mp := if 2 <? m then m - 3 else m + 9 in
  let doy := (153 * mp + 2) / 5 + d - 1 in
  let doe := yoe * 365 + yoe / 4 - yoe / 100 + doy in
  era * 146097 + doe - 719468.

Definition digit (n : Z) : ascii := ascii_of_nat (48 + Z.to_nat n).

Definition digit_val (c : ascii) : option Z :=
  let n := nat_of_ascii c in
  if (48 <=? n)%nat && (n <=? 57)%nat then Some (Z.of_nat n - 48) else None.

(** [n] in decimal on exactly [w] digits, most significant first. *)
Fixpoint pad (w : nat) (n : Z) : string :=
  match w with
  | O => EmptyString
  | S w' => String (digit (n / 10 ^ Z.of_nat w')) (pad w' (n mod 10 ^ Z.of_nat w'))
  end.

(** Reads exactly [w] decimal digits off the front of [s]. *)
Fixpoint readDigits (w : nat) (acc : Z) (s : string) : option (Z * string) :=
  match w with
  | O => Some (acc, s)
  | S w' =>
      match s with
      | String c s' =>
          match digit_val c with
          | Some v => readDigits w' (10 * acc + v) s'
          | None => None
          end
      | EmptyString => None
      end
  end.

(** Reads one given character. *)
Definition expect (c : ascii) (s : string) : option string :=
  match s with
  | String a s' => if Ascii.eqb a c then Some s' else None
  | EmptyString => None
  end.

(** Years 0 to 9999 are written on four digits, the others as a sign and six
    digits. *)
Definition year_str (y : Z) : string :=
  if (0 <=? y) && (y <=? 9999) then pad 4 y
  else String (if y <? 0 then "-"%char else "+"%char) (pad 6 (Z.abs y)).

(** [new Date(t).toISOString()], for a time value [t]:
    [YYYY-MM-DDTHH:mm:ss.sssZ]. *)
Definition toISOString (t : Z) : string :=
  let day := t / msPerDay in
  let tod := t mod msPerDay in
  let '(y, m, d) := civil_from_days day in
  year_str y +:+ "-" +:+ pad 2 m +:+ "-" +:+ pad 2 d +:+ "T" +:+
  pad 2 (tod / 3600000) +:+ ":" +:+ pad 2 (tod / 60000 mod 60) +:+ ":" +:+
  pad 2 (tod / 1000 mod 60) +:+ "." +:+ pad 3 (tod mod 1000) +:+ "Z".

Definition readYear (s : string) : option (Z * string) :=
  match s with
  | String "+" s' => readDigits 6 0 s'
  | String "-" s' =>
      '(y, rest) ← readDigits 6 0 s';
      if y =? 0 then None else Some (- y, rest)
  | _ => readDigits 4 0 s
  end.

(** [Date.parse] on the complete UTC form of the date-time string format,
    the form [toISOString] writes.  The fields are range-checked as the
    format requires.  Any other string is read as an invalid date here; an
    engine accepts further forms, which the stored collection never
    holds. *)
Definition Date_parse (s : string) : Date :=
  let parsed : option Z :=
    '(y, s) ← readYear s;
    s ← expect "-" s;
    '(m, s) ← readDigits 2 0 s;
    s ← expect "-" s;
    '(d, s) ← readDigits 2 0 s;
    s ← expect "T" s;
    '(h, s) ← readDigits 2 0 s;
    s ← expect ":" s;
    '(mi, s) ← readDigits 2 0 s;
    s ← expect ":" s;
    '(sec, s) ← readDigits 2 0 s;
    s ← expect "." s;
    '(ms, s) ← readDigits 3 0 s;
    s ← expect "Z" s;
    if String.eqb s ""
       && (1 <=? m) && (m <=? 12) && (1 <=? d) && (d <=? 31)
       && (h <? 24) && (mi <? 60) && (sec <? 60)
    then Some (days_from_civil y m d * msPerDay
               + h * 3600000 + mi * 60000 + sec * 1000 + ms)
    else None in
  match parsed with
  | Some t => TimeClip t
  | None => InvalidDate
  end.

(** *** Saving (lines 54-56) *)

(** [Date.prototype.toJSON]: the ISO string, or [null] for an invalid
    date. *)
Definition Date_toJSON (d : Date) : JSON :=
  match d with
  | ValidDate t => JString (toISOString t)
  | InvalidDate => JNull
  end.

(** A property whose value is [undefined] is left out of the object. *)
Definition optProp (key : string) (v : option JSON) : list (string * JSON) :=
  match v with
  | Some j => [(key, j)]
  | None => []
  end.

Definition Task_toJSON (task : Task.t) : JSON :=
  JObject
    ([("id", JString (Task.id task));
      ("title", JString (Task.title task))]
     ++ optProp "description" (JString <$> Task.description task)
     ++ [("createdAt", Date_toJSON (Task.createdAt task));
         ("updatedAt", Date_toJSON (Task.updatedAt task))]
     ++ optProp "dueDate" (Date_toJSON <$> Task.dueDate task)
     ++ [("priority", JString (Priority_str (Task.priority task)));
         ("status", JString (Status_str (Task.status task)))]
     ++ optProp "categoryId" (JString <$> Task.categoryId task)).

(** The value written under the key ['tasks']. *)
Definition saveTasks (tasks : list Task.t) : JSON :=
  JArray (map Task_toJSON tasks).

(** *** Loading (lines 37-46) *)

(** [o[key]] on a parsed object; of a repeated key the last one counts. *)
Fixpoint getProp (props : list (string * JSON)) (key : string) : option JSON :=
  match props with
  | [] => None
  | (k, v) :: rest =>
      match getProp rest key with
      | Some v' => Some v'
      | None => if String.eqb k key then Some v else None
      end
  end.

Definition Priority_of_str (s : string) : option Priority :=
  if String.eqb s "low" then Some low
  else if String.eqb s "medium" then Some medium
  else if String.eqb s "high" then Some high
  else None.

Definition Status_of_str (s : string) : option Status :=
  if String.eqb s "todo" then Some todo
  else if String.eqb s "in-progress" then Some in_progress
  else if String.eqb s "completed" then Some completed
  else None.

(** The cast [as Task[]] is unchecked.  The reading functions below return
    [None] on a stored value that does not have the shape of a serialized
    [Task]: a required string missing, a property of another JSON type. *)
Definition requiredString (props : list (string * JSON)) (key : string)
  : option string :=
  match getProp props key with
  | Some (JString s) => Some s
  | _ => None
  end.

Definition optionalString (props : list (string * JSON)) (key : string)
  : option (option string) :=
  match getProp props key with
  | None => Some None
  | Some (JString s) => Some (Some s)
  | Some _ => None
  end.

(** [new Date(task[key])] (lines 42-43): a string is parsed, [null] is the
    number 0, [undefined] is NaN. *)
Definition rehydrateDate (props : list (string * JSON)) (key : string)
  : option Date :=
  match getProp props key with
  | None => Some InvalidDate
  | Some JNull => Some (ValidDate 0)
  | Some (JString s) => Some (Date_parse s)
  | Some _ => None
  end.

(** [task.dueDate ? new Date(task.dueDate) : undefined] (line 44): [null],
    [undefined] and the empty string are falsy. *)
Definition rehydrateDueDate (props : list (string * JSON))
  : option (option Date) :=
  match getProp props "dueDate" with
  | None | Some JNull | Some (JString EmptyString) => Some None
  | Some (JString s) => Some (Some (Date_parse s))
  | Some _ => None
  end.

(** The callback of lines 40-45. *)
Definition rehydrate (o : JSON) : option Task.t :=
  match o with
  | JObject props =>
      id ← requiredString props "id";
      title ← requiredString props "title";
      description ← optionalString props "description";
      createdAt ← rehydrateDate props "createdAt";
      updatedAt ← rehydrateDate props "updatedAt";
      dueDate ← rehydrateDueDate props;
      priority ← requiredString props "priority" ≫= Priority_of_str;
      status ← requiredString props "status" ≫= Status_of_str;
      categoryId ← optionalString props "categoryId";
      Some (Task.mk id title description createdAt updatedAt dueDate
                    priority status categoryId)
  | _ => None
  end.

(** The collection put in the state from the value stored under ['tasks']. *)
Definition loadTasks (stored : JSON) : option (list Task.t) :=
  match stored with
  | JArray items => mapM rehydrate items
  | _ => None
  end.

(** ** Vocabulary of the statements *)

(** [t'] is [t] in every field but [categoryId]. *)
Definition same_but_categoryId (t t' : Task.t) : Prop :=
  Task.id t' = Task.id t /\ Task.title t' = Task.title t /\
  Task.description t' = Task.description t /\
  Task.createdAt t' = Task.createdAt t /\ Task.updatedAt t' = Task.updatedAt t /\
  Task.dueDate t' = Task.dueDate t /\ Task.priority t' = Task.priority t /\
  Task.status t' = Task.status t.

(** A field after an update: the patch's value when the patch mentions the
    field, the old value when it does not. *)
Definition patched {A : Type} (old new : A) (p : option A) : Prop :=
  match p with Some v => new = v | None => new = old end.

(** [a] stands somewhere before [b] in [l]. *)
Definition before (a b : string) (l : list string) : Prop :=
  exists i j : nat, (i < j)%nat /\ l !! i = Some a /\ l !! j = Some b.

(** The identifiers of [s] are pairwise distinct and [a] and [b] are among
    them. *)
Definition present (a b : string) (s : State) : Prop :=
  NoDup (ids (tasks s)) /\ a ∈ ids (tasks s) /\ b ∈ ids (tasks s).

(** [sub] occurs in [s]. *)
Definition occurs_in (sub s : string) : Prop :=
  exists pre post, s = pre +:+ sub +:+ post.

(** The keys at which the category mode reads and writes its record, the
    identifiers of the categories and the keys of the filtered tasks, are
    ordinary ones: none is a name inherited from [Object.prototype]. *)
Definition ordinary_keys (categories : list Category.t)
    (filteredTasks : list Task.t) : Prop :=
  Forall (fun c => Category.id c ∉ Object_prototype) categories /\
  Forall (fun t => bucketKey t ∉ Object_prototype) filteredTasks.

(** The tasks of [l] that [groupByCategory] files under [key]. *)
Definition bucketOf (key : string) (l : list Task.t) : list Task.t :=
  List.filter (fun t => String.eqb (bucketKey t) key) l.

(** The number of the local day a time value falls on. *)
Definition localDay (tz t : Z) : Z := (t + tz) / msPerDay.

(** Every date of the task is a valid date. *)
Definition Task_dates_valid (t : Task.t) : Prop :=
  Date_valid (Task.createdAt t) /\ Date_valid (Task.updatedAt t) /\
  match Task.dueDate t with Some d => Date_valid d | None => True end.

(** *** Sample values for the closed statements *)

Definition sampleTask (id title : string) : Task.t :=
  Task.mk id title None (ValidDate 0) (ValidDate 0) None medium todo None.

Definition sampleNew (title : string) : NewTask.t :=
  NewTask.mk title None None medium todo None.

(** A clock that advances by one millisecond between two readings, and a
    generator that hands out ["a"], ["b"], ["c"], ... *)
Definition tick (n : nat) : Z := 1700000000000 + Z.of_nat n.

Definition letters (n : nat) : string := String (ascii_of_nat (97 + n)) "".

Definition patch_id (i : string) : Patch.t :=
  Patch.mk (Some i) None None None None None None None None.

Definition patch_status (st : Status) : Patch.t :=
  Patch.mk None None None None None None None (Some st) None.

Definition twoTasks : State :=
  mkState [sampleTask "a" "Buy groceries"; sampleTask "b" "Pay bills"]
          defaultCategories [] 0 2.

(** A task whose [categoryId] is the empty string. *)
Definition emptyCategoryId : Task.t :=
  Task.mk "a" "Buy groceries" None (ValidDate 0) (ValidDate 0) None
          medium todo (Some "").

(** A task whose description, not its title, mentions groceries. *)
Definition describedTask : Task.t :=
  Task.mk "b" "Pay bills" (Some "Rent and groceries") (ValidDate 0)
          (ValidDate 0) None medium todo None.

(** The title "CAFE" with an acute accent on the E, in upper case, and the
    accented letter in lower case. *)
Definition accentedTitle : string := "CAF" +:+ String "201"%char "".
Definition accentedQuery : string := String "233"%char "".

(** A task that refers to a category that does not exist. *)
Definition danglingTask : Task.t :=
  Task.mk "t1" "Call plumber" None (ValidDate 0) (ValidDate 0) None
          medium todo (Some "5").

(** A task due on 2023-11-13, the day before the one [tick 0] falls on. *)
Definition dueYesterday (st : Status) : Task.t :=
  Task.mk "t1" "File taxes" None (ValidDate 0) (ValidDate 0)
          (Some (ValidDate 1699900000000)) medium st None.

(** A task with all optional fields and one with none. *)
Definition fullTask : Task.t :=
  Task.mk "a" "Buy groceries" (Some "milk, eggs") (ValidDate 1700000000000)
          (ValidDate 1700000000001) (Some (ValidDate 1700086400000))
          high in_progress (Some "3").

(** A task whose creation date and due date are invalid dates. *)
Definition neverStamped : Task.t :=
  Task.mk "a" "Buy groceries" None InvalidDate (ValidDate 0)
          (Some InvalidDate) medium todo None.

(** Closes a goal that the instances of [decide] settle by computation. *)
Ltac by_decision :=
  match goal with
  | |- ?P => apply (@bool_decide_unpack P _); vm_compute; exact I
  end.

(** ** Loading and saving the categories, and the mount effect
    ([TaskContext.tsx], lines 33-61) *)

Definition Category_toJSON (category : Category.t) : JSON :=
  JObject [("id", JString (Category.id category));
           ("name", JString (Category.name category));
           ("color", JString (Category.color category))].

(** The value written under the key ['categories'] (line 60). *)
Definition saveCategories (categories : list Category.t) : JSON :=
  JArray (map Category_toJSON categories).

(** [JSON.parse(storedCategories)] taken as a [Category[]] (line 49); as for
    tasks, [None] on a value that does not have that shape. *)
Definition readCategory (o : JSON) : option Category.t :=
  match o with
  | JObject props =>
      id ← requiredString props "id";
      name ← requiredString props "name";
      color ← requiredString props "color";
      Some (Category.mk id name color)
  | _ => None
  end.

Definition loadCategories (stored : JSON) : option (list Category.t) :=
  match stored with
  | JArray items => mapM readCategory items
  | _ => None
  end.

(** The provider after its mount effect (lines 29-51): [getItem] gives
    [null] for a key that was never written, and the state then keeps its
    initial value. *)
Definition mount (storedTasks storedCategories : option JSON) : option State :=
  tasks ← match storedTasks with
          | Some stored => loadTasks stored
          | None => Some []
          end;
  categories ← match storedCategories with
               | Some stored => loadCategories stored
               | None => Some defaultCategories
               end;
  Some (mkState tasks categories [] 0 0).

(** ** Column titles ([TaskManager], lines 288-310) *)

(** [undefined], for a key the table of the mode does not have, is
    [None]. *)
Definition getColumnTitle (viewMode : ViewMode) (categories : list Category.t)
    (key : string) : option string :=
  match viewMode with
  | board =>
      if String.eqb key "todo" then Some "To Do"
      else if String.eqb key "in-progress" then Some "In Progress"
      else if String.eqb key "completed" then Some "Completed"
      else None
  | category =>
      if String.eqb key "none" then Some "Uncategorized"
      else
        match List.find (fun c => String.eqb (Category.id c) key) categories with
        | Some found => Some (Category.name found)
        | None => Some key
        end
  | calendar =>
      if String.eqb key "overdue" then Some "Overdue"
      else if String.eqb key "today" then Some "Today"
      else if String.eqb key "tomorrow" then Some "Tomorrow"
      else if String.eqb key "upcoming" then Some "Upcoming"
      else if String.eqb key "no-date" then Some "No Due Date"
      else None
  end.

(** ** Task card ([src/components/TaskCard.tsx]) *)

(** The category whose badge the card shows (line 29); [c.id ===
    task.categoryId] is false for a task without the property. *)
Definition cardCategory (categories : list Category.t) (task : Task.t)
  : option Category.t :=
  match Task.categoryId task with
  | Some categoryId =>
      List.find (fun c => String.eqb (Category.id c) categoryId) categories
  | None => None
  end.

(** Lines 32-35. *)
Definition nextStatus (status : Status) : Status :=
  if String.eqb (Status_str status) "todo" then in_progress
  else if String.eqb (Status_str status) "in-progress" then completed
  else todo.

(** ** Forms ([src/components/TaskForm.tsx], [src/pages/Categories.tsx]) *)

(** The white space and line terminators among the code units below 256:
    tab, line feed, vertical tab, form feed, carriage return, space and
    no-break space. *)
Definition isWhiteSpace (c : ascii) : bool :=
  let n := nat_of_ascii c in
  ((9 <=? n)%nat && (n <=? 13)%nat) || (n =? 32)%nat || (n =? 160)%nat.

Fixpoint trimStart (s : string) : string :=
  match s with
  | String c s' => if isWhiteSpace c then trimStart s' else s
  | EmptyString => EmptyString
  end.

Fixpoint trimEnd (s : string) : string :=
  match s with
  | String c s' =>
      match trimEnd s' with
      | EmptyString => if isWhiteSpace c then EmptyString else String c EmptyString
      | rest => String c rest
      end
  | EmptyString => EmptyString
  end.

(** [s.trim()]. *)
Definition trim (s : string) : string := trimEnd (trimStart s).

(** [s || d] on strings: the empty string is falsy. *)
Definition orString (s d : string) : string :=
  match s with
  | EmptyString => d
  | String _ _ => s
  end.

(** [s || undefined]. *)
Definition orUndefined (s : string) : option string :=
  match s with
  | EmptyString => None
  | String _ _ => Some s
  end.

(** The state of the task form (lines 26-31). *)
Module TaskForm.
Record t : Set := mk {
  title : string;
  description : string;
  priority : Priority;
  status : Status;
  dueDate : option Date;
  categoryId : option string
}.
End TaskForm.

(** The initial state, for the task being edited or for a new task
    (lines 26-31). *)
Definition TaskForm_init (editing : option Task.t) : TaskForm.t :=
  match editing with
  | Some task =>
      {| TaskForm.title := orString (Task.title task) "";
         TaskForm.description :=
           match Task.description task with
           | Some d => orString d ""
           | None => ""
           end;
         TaskForm.priority := Task.priority task;
         TaskForm.status := Task.status task;
         TaskForm.dueDate := Task.dueDate task;
         TaskForm.categoryId := Task.categoryId task |}
  | None =>
      {| TaskForm.title := "";
         TaskForm.description := "";
         TaskForm.priority := medium;
         TaskForm.status := todo;
         TaskForm.dueDate := None;
         TaskForm.categoryId := None |}
  end.

(** What the user does to the form: typing in the title (line 81) and in
    the description (line 93), choosing a priority (line 105) and a status
    (line 125), picking a day in the calendar (lines 159-162) or clearing it
    (line 171), and choosing an entry of the category selector (line 185),
    whose value is the empty string for "None". *)
Inductive TaskFormEvent : Set :=
  | SetTitle (value : string)
  | SetDescription (value : string)
  | SetPriority (value : Priority)
  | SetStatus (value : Status)
  | SelectDate (date : option Date)
  | ClearDate
  | SelectCategory (value : string).

Definition TaskForm_handle (e : TaskFormEvent) (f : TaskForm.t) : TaskForm.t :=
  match e with
  | SetTitle value =>
      TaskForm.mk value (TaskForm.description f) (TaskForm.priority f)
                  (TaskForm.status f) (TaskForm.dueDate f) (TaskForm.categoryId f)
  | SetDescription value =>
      TaskForm.mk (TaskForm.title f) value (TaskForm.priority f)
                  (TaskForm.status f) (TaskForm.dueDate f) (TaskForm.categoryId f)
  | SetPriority value =>
      TaskForm.mk (TaskForm.title f) (TaskForm.description f) value
                  (TaskForm.status f) (TaskForm.dueDate f) (TaskForm.categoryId f)
  | SetStatus value =>
      TaskForm.mk (TaskForm.title f) (TaskForm.description f) (TaskForm.priority f)
                  value (TaskForm.dueDate f) (TaskForm.categoryId f)
  | SelectDate date =>
      TaskForm.mk (TaskForm.title f) (TaskForm.description f) (TaskForm.priority f)
                  (TaskForm.status f) date (TaskForm.categoryId f)
  | ClearDate =>
      TaskForm.mk (TaskForm.title f) (TaskForm.description f) (TaskForm.priority f)
                  (TaskForm.status f) None (TaskForm.categoryId f)
  | SelectCategory value =>
      TaskForm.mk (TaskForm.title f) (TaskForm.description f) (TaskForm.priority f)
                  (TaskForm.status f) (TaskForm.dueDate f) (orUndefined value)
  end.

(** The patch and the new task the form submits (lines 51-58, 61-68). *)
Definition TaskForm_patch (f : TaskForm.t) : Patch.t :=
  {| Patch.id := None;
     Patch.title := Some (TaskForm.title f);
     Patch.description := Some (orUndefined (TaskForm.description f));
     Patch.createdAt := None;
     Patch.updatedAt := None;
     Patch.dueDate := Some (TaskForm.dueDate f);
     Patch.priority := Some (TaskForm.priority f);
     Patch.status := Some (TaskForm.status f);
     Patch.categoryId := Some (TaskForm.categoryId f) |}.

Definition TaskForm_newTask (f : TaskForm.t) : NewTask.t :=
  {| NewTask.title := TaskForm.title f;
     NewTask.description := orUndefined (TaskForm.description f);
     NewTask.dueDate := TaskForm.dueDate f;
     NewTask.priority := TaskForm.priority f;
     NewTask.status := TaskForm.status f;
     NewTask.categoryId := TaskForm.categoryId f |}.

(** The state of the category form ([Categories.tsx], lines 21-22) and its
    initial value. *)
Module CategoryForm.
Record t : Set := mk { name : string; color : string }.
End CategoryForm.

Definition CategoryForm_init (editing : option Category.t) : CategoryForm.t :=
  match editing with
  | Some cat =>
      CategoryForm.mk (orString (Category.name cat) "")
                      (orString (Category.color cat) "#3b82f6")
  | None => CategoryForm.mk "" "#3b82f6"
  end.

Section Components.

Variable clock : nat -> Z.
Variable uuidv4 : nat -> string.

(** [toggleStatus] of the card that shows [task] ([TaskCard.tsx],
    lines 31-38). *)
Definition toggleStatus (task : Task.t) (s : State) : State :=
  updateTask clock (Task.id task)
    {| Patch.id := None; Patch.title := None; Patch.description := None;
       Patch.createdAt := None; Patch.updatedAt := None; Patch.dueDate := None;
       Patch.priority := None;
       Patch.status := Some (nextStatus (Task.status task));
       Patch.categoryId := None |}
    s.

(** A click on the status button of the card at position [k] of the
    collection: the card's [task] is the task the state has there. *)
Definition clickStatus (k : nat) (s : State) : State :=
  match tasks s !! k with
  | Some task => toggleStatus task s
  | None => s
  end.

(** [handleSubmit] of the task form ([TaskForm.tsx], lines 42-72), for the
    task being edited or for a new one.  The boolean tells whether
    [onSubmit], which closes the dialog, was called. *)
Definition TaskForm_handleSubmit (editing : option Task.t) (f : TaskForm.t)
    (s : State) : State * bool :=
  if String.eqb (trim (TaskForm.title f)) "" then (s, false)
  else
    match editing with
    | Some task => (updateTask clock (Task.id task) (TaskForm_patch f) s, true)
    | None => (addTask clock uuidv4 (TaskForm_newTask f) s, true)
    end.

(** [handleSubmit] of the category form ([Categories.tsx], lines 35-49). *)
Definition CategoryForm_handleSubmit (editing : option Category.t)
    (f : CategoryForm.t) (s : State) : State * bool :=
  if String.eqb (trim (CategoryForm.name f)) "" then (s, false)
  else
    match editing with
    | Some cat =>
        (updateCategory (Category.id cat)
           {| CategoryPatch.id := None;
              CategoryPatch.name := Some (CategoryForm.name f);
              CategoryPatch.color := Some (CategoryForm.color f) |} s, true)
    | None =>
        (addCategory uuidv4
           (NewCategory.mk (CategoryForm.name f) (CategoryForm.color f)) s, true)
    end.

End Components.

(** ** Vocabulary of the further statements *)

(** Every category reference of a task identifies a category. *)
Definition refs_valid (s : State) : Prop :=
  forall t c, t ∈ tasks s -> Task.categoryId t = Some c ->
              c ∈ map Category.id (categories s).

(** A request that brings in no reference to a missing category and renames
    no category. *)
Definition ref_safe (op : Op) (s : State) : Prop :=
  match op with
  | AddTask task =>
      forall c, NewTask.categoryId task = Some c ->
                c ∈ map Category.id (categories s)
  | UpdateTask _ updatedFields =>
      forall c, Patch.categoryId updatedFields = Some (Some c) ->
                c ∈ map Category.id (categories s)
  | UpdateCategory id updatedFields =>
      spread id (CategoryPatch.id updatedFields) = id
  | _ => True
  end.

Section CategoryRequests.
Variable uuidv4 : nat -> string.

(** The generator hands [addCategory] an identifier no category has, and the
    patch of an [updateCategory] leaves the identifier alone. *)
Definition category_safe (op : Op) (s : State) : Prop :=
  match op with
  | AddCategory _ => uuidv4 (draws s) ∉ map Category.id (categories s)
  | UpdateCategory id updatedFields =>
      spread id (CategoryPatch.id updatedFields) = id
  | _ => True
  end.
End CategoryRequests.

(** [t] with another status and another update timestamp. *)
Definition restamp (t : Task.t) (st : Status) (d : Date) : Task.t :=
  Task.mk (Task.id t) (Task.title t) (Task.description t) (Task.createdAt t)
          d (Task.dueDate t) (Task.priority t) st (Task.categoryId t).

(** Every character of [s] is white space. *)
Definition blank (s : string) : Prop :=
  Forall (fun c => isWhiteSpace c = true) (list_ascii_of_string s).

(** The bucket of [g] under [k], empty when [g] has none. *)
Definition bucket (g : gmap string (list Task.t)) (k : string) : list Task.t :=
  default [] (g !! k).

(** The keys of the record the date mode starts from (lines 240-246). *)
Definition dateKeys : list string :=
  ["overdue"; "today"; "tomorrow"; "upcoming"; "no-date"].

(** A request that brings in no invalid date. *)
Definition dates_safe (op : Op) : Prop :=
  match op with
  | AddTask task =>
      match NewTask.dueDate task with Some d => Date_valid d | None => True end
  | UpdateTask _ updatedFields =>
      match Patch.createdAt updatedFields with
      | Some d => Date_valid d
      | None => True
      end /\
      match Patch.dueDate updatedFields with
      | Some (Some d) => Date_valid d
      | _ => True
      end
  | _ => True
  end.

(** A clock that stands still. *)
Definition frozen (n : nat) : Z := 1700000000000.


(** * Properties *)

(** ** The state container *)

Section ContainerFacts.

Context (clock : nat -> Z) (uuidv4 : nat -> string).

(** The traversal of [updateTask] never gives clock readings back. *)
Lemma updateTask_map_reads id p l : forall n,
  (n <= snd (updateTask_map clock id p l n))%nat.
Proof.
  induction l as [|t l IH]; intros n; cbn; [lia|].
  destruct (String.eqb (Task.id t) id).
  - specialize (IH (S n)).
    destruct (updateTask_map clock id p l (S n)); cbn in *. lia.
  - specialize (IH n). destruct (updateTask_map clock id p l n); cbn in *. lia.
Qed.

(** What the traversal leaves at each position: the task itself when its id
    differs, the merge of the task with the patch and one of the clock
    readings made on the way when it matches. *)
Lemma updateTask_map_lookup id p l : forall n k t,
  l !! k = Some t ->
  let r := updateTask_map clock id p l n in
  (Task.id t <> id /\ fst r !! k = Some t) \/
  (Task.id t = id /\ exists m, (n <= m < snd r)%nat /\
     fst r !! k = Some (mergeTask t p (newDate clock m))).
Proof.
  induction l as [|u l IH]; intros n k t Hk; [discriminate|].
  cbn [updateTask_map].
  destruct (String.eqb (Task.id u) id) eqn:E.
  - apply String.eqb_eq in E.
    pose proof (updateTask_map_reads id p l (S n)) as Hr.
    specialize (IH (S n)).
    destruct (updateTask_map clock id p l (S n)) as [l' n'] eqn:R. cbn in *.
    destruct k as [|k]; cbn in *.
    + injection Hk as <-. right. split; [exact E|].
      exists n. split; [lia|reflexivity].
    + destruct (IH k t Hk) as [[H1 H2]|[H1 (m & Hm & H2)]]; [left; auto|].
      right. split; [exact H1|]. exists m. split; [lia|exact H2].
  - apply String.eqb_neq in E.
    specialize (IH n).
    destruct (updateTask_map clock id p l n) as [l' n'] eqn:R. cbn in *.
    destruct k as [|k]; cbn in *.
    + injection Hk as <-. left. auto.
    + exact (IH k t Hk).
Qed.

Lemma updateTask_map_length id p l : forall n,
  length (fst (updateTask_map clock id p l n)) = length l.
Proof.
  induction l as [|t l IH]; intros n; cbn; [reflexivity|].
  destruct (String.eqb (Task.id t) id).
  - specialize (IH (S n)).
    destruct (updateTask_map clock id p l (S n)); cbn in *. lia.
  - specialize (IH n). destruct (updateTask_map clock id p l n); cbn in *. lia.
Qed.

Lemma updateTask_map_absent id p l : forall n,
  id ∉ ids l -> updateTask_map clock id p l n = (l, n).
Proof.
  induction l as [|t l IH]; intros n H; cbn; [reflexivity|].
  cbn in H. apply not_elem_of_cons in H as [H1 H2].
  destruct (String.eqb (Task.id t) id) eqn:E.
  - apply String.eqb_eq in E. congruence.
  - rewrite IH by exact H2. reflexivity.
Qed.

Lemma tasks_updateTask id p s :
  tasks (updateTask clock id p s) =
  fst (updateTask_map clock id p (tasks s) (reads s)).
Proof.
  unfold updateTask.
  destruct (updateTask_map clock id p (tasks s) (reads s)); reflexivity.
Qed.

Lemma reads_updateTask id p s :
  reads (updateTask clock id p s) =
  snd (updateTask_map clock id p (tasks s) (reads s)).
Proof.
  unfold updateTask.
  destruct (updateTask_map clock id p (tasks s) (reads s)); reflexivity.
Qed.

Lemma deleteTask_filter_absent id l : id ∉ ids l -> deleteTask_filter id l = l.
Proof.
  induction l as [|t l IH]; intros H; cbn; [reflexivity|].
  cbn in H. apply not_elem_of_cons in H as [H1 H2].
  destruct (String.eqb (Task.id t) id) eqn:E.
  - apply String.eqb_eq in E. congruence.
  - cbn. f_equal. apply IH, H2.
Qed.

(** *** What the operations do to the list of identifiers *)

Lemma ids_updateTask_map id p l : forall n,
  ids (fst (updateTask_map clock id p l n)) =
  map (fun x => if String.eqb x id then spread id (Patch.id p) else x) (ids l).
Proof.
  induction l as [|t l IH]; intros n; cbn; [reflexivity|].
  destruct (String.eqb (Task.id t) id) eqn:E.
  - specialize (IH (S n)).
    destruct (updateTask_map clock id p l (S n)); cbn in *.
    apply String.eqb_eq in E. rewrite E. f_equal. exact IH.
  - specialize (IH n). destruct (updateTask_map clock id p l n); cbn in *.
    f_equal. exact IH.
Qed.

Lemma ids_updateTask_keeps id p l n :
  spread id (Patch.id p) = id ->
  ids (fst (updateTask_map clock id p l n)) = ids l.
Proof.
  intros H. rewrite ids_updateTask_map, H.
  rewrite <- (map_id (ids l)) at 2. apply map_ext. intros x.
  destruct (String.eqb x id) eqn:E; [|reflexivity].
  apply String.eqb_eq in E. congruence.
Qed.

Lemma ids_deleteTask_filter id l :
  ids (deleteTask_filter id l) =
  List.filter (fun x => negb (String.eqb x id)) (ids l).
Proof.
  induction l as [|t l IH]; cbn; [reflexivity|].
  destruct (String.eqb (Task.id t) id); cbn; [exact IH|f_equal; exact IH].
Qed.

Lemma ids_deleteCategory_map c l : ids (deleteCategory_map c l) = ids l.
Proof.
  induction l as [|t l IH]; cbn; [reflexivity|].
  f_equal; [|exact IH]. destruct (categoryId_is c t); reflexivity.
Qed.

Lemma NoDup_List_filter {A} (f : A -> bool) (l : list A) :
  NoDup l -> NoDup (List.filter f l).
Proof.
  induction 1 as [|x l Hx Hl IH]; cbn; [constructor|].
  destruct (f x); [|exact IH]. constructor; [|exact IH].
  rewrite list_elem_of_In, filter_In, <- list_elem_of_In. tauto.
Qed.

(** One request keeps the identifiers pairwise distinct, when the generator
    is fresh and the patch leaves the identifier alone. *)
Lemma step_keeps_ids_unique op s :
  fresh_draw uuidv4 op s -> keeps_id op ->
  NoDup (ids (tasks s)) -> NoDup (ids (tasks (step clock uuidv4 op s))).
Proof.
  intros Hf Hk Hs. destruct op as [task|id p|id|c|id p|id]; cbn in *.
  - unfold ids. rewrite map_app. cbn. apply NoDup_app. repeat split.
    + exact Hs.
    + intros x Hx Hx'. apply list_elem_of_singleton in Hx'. subst x.
      exact (Hf Hx).
    + apply NoDup_singleton.
  - rewrite tasks_updateTask, ids_updateTask_keeps by exact Hk. exact Hs.
  - rewrite ids_deleteTask_filter. apply NoDup_List_filter, Hs.
  - exact Hs.
  - exact Hs.
  - rewrite ids_deleteCategory_map. exact Hs.
Qed.

(** [addTask] appends one task made of the input's fields, the identifier
    drawn and two successive clock readings. *)
Lemma addTask_appends (task : NewTask.t) (s : State) :
  exists t, tasks (addTask clock uuidv4 task s) = tasks s ++ [t] /\
    Task.id t = uuidv4 (draws s) /\
    Task.createdAt t = ValidDate (clock (reads s)) /\
    Task.updatedAt t = ValidDate (clock (S (reads s))) /\
    Task.title t = NewTask.title task /\
    Task.description t = NewTask.description task /\
    Task.dueDate t = NewTask.dueDate task /\
    Task.priority t = NewTask.priority task /\
    Task.status t = NewTask.status task /\
    Task.categoryId t = NewTask.categoryId task.
Proof. eexists. cbn. repeat split. Qed.

(** *** Relative order of identifiers *)

Lemma before_total a b (l : list string) :
  a <> b -> a ∈ l -> b ∈ l -> before a b l \/ before b a l.
Proof.
  intros Hab Ha Hb.
  apply list_elem_of_lookup in Ha as [i Hi], Hb as [j Hj].
  destruct (Nat.lt_total i j) as [H|[H|H]].
  - left. exists i, j. auto.
  - subst j. congruence.
  - right. exists j, i. auto.
Qed.

Lemma before_exclusive a b (l : list string) :
  NoDup l -> before a b l -> before b a l -> False.
Proof.
  intros Hl (i & j & Hij & Hi & Hj) (i' & j' & Hij' & Hi' & Hj').
  pose proof (NoDup_lookup l _ _ _ Hl Hi Hj').
  pose proof (NoDup_lookup l _ _ _ Hl Hj Hi'). lia.
Qed.

Lemma before_distinct a b (l : list string) :
  NoDup l -> before a b l -> a <> b.
Proof.
  intros Hl (i & j & Hij & Hi & Hj) ->.
  pose proof (NoDup_lookup l _ _ _ Hl Hi Hj). lia.
Qed.

Lemma before_app a b (l k : list string) : before a b l -> before a b (l ++ k).
Proof.
  intros (i & j & Hij & Hi & Hj). exists i, j.
  repeat split; [exact Hij|apply lookup_app_l_Some..]; assumption.
Qed.

Lemma before_map (f : string -> string) a b (l : list string) :
  f a = a -> f b = b -> before a b l -> before a b (map f l).
Proof.
  intros Ha Hb (i & j & Hij & Hi & Hj). exists i, j.
  repeat split; [exact Hij|..]; rewrite list_lookup_fmap.
  - rewrite Hi. cbn. congruence.
  - rewrite Hj. cbn. congruence.
Qed.

Lemma before_filter (f : string -> bool) a b (l : list string) :
  f a = true -> f b = true -> before a b l -> before a b (List.filter f l).
Proof.
  intros Ha Hb. induction l as [|x l IH]; intros (i & j & Hij & Hi & Hj).
  - discriminate.
  - destruct i as [|i].
    + cbn in Hi. injection Hi as ->. cbn. rewrite Ha.
      destruct j as [|j]; [lia|]. cbn in Hj.
      assert (Hin : b ∈ List.filter f l).
      { rewrite list_elem_of_In, filter_In, <- list_elem_of_In.
        split; [|exact Hb]. apply list_elem_of_lookup. eauto. }
      apply list_elem_of_lookup in Hin as [j' Hj'].
      exists 0%nat, (S j'). repeat split; [lia|exact Hj'].
    + destruct j as [|j]; [lia|]. cbn in Hi, Hj.
      destruct IH as (i' & j' & Hij' & Hi' & Hj').
      { exists i, j. repeat split; [lia|..]; assumption. }
      cbn. destruct (f x).
      * exists (S i'), (S j'). repeat split; [lia|..]; assumption.
      * exists i', j'. auto.
Qed.

(** A request does not move an identifier before another one, when both are
    still there after it. *)
Lemma step_keeps_order op s a b :
  a ∈ ids (tasks (step clock uuidv4 op s)) ->
  b ∈ ids (tasks (step clock uuidv4 op s)) ->
  before a b (ids (tasks s)) ->
  before a b (ids (tasks (step clock uuidv4 op s))).
Proof.
  intros Ha Hb H. destruct op as [task|id p|id|c|id p|id]; cbn in *.
  - unfold ids. rewrite map_app. apply before_app, H.
  - rewrite tasks_updateTask, ids_updateTask_map in *.
    set (f := fun x => if String.eqb x id then spread id (Patch.id p) else x) in *.
    assert (Hf : forall x, x ∈ map f (ids (tasks s)) -> f x = x).
    { intros x Hx. apply list_elem_of_fmap in Hx as (y & -> & _). subst f. cbn.
      destruct (String.eqb y id) eqn:E; [|rewrite E; reflexivity].
      destruct (String.eqb (spread id (Patch.id p)) id); reflexivity. }
    apply before_map; auto.
  - rewrite ids_deleteTask_filter in *.
    rewrite list_elem_of_In, filter_In in Ha, Hb.
    apply before_filter; tauto.
  - exact H.
  - exact H.
  - rewrite ids_deleteCategory_map. exact H.
Qed.

Lemma step_order_iff op s a b :
  present a b s -> present a b (step clock uuidv4 op s) ->
  before a b (ids (tasks s)) <->
  before a b (ids (tasks (step clock uuidv4 op s))).
Proof.
  intros (Hn & Ha & Hb) (Hn' & Ha' & Hb'). split.
  - apply step_keeps_order; assumption.
  - intros H'. pose proof (before_distinct _ _ _ Hn' H') as Hab.
    destruct (before_total a b _ Hab Ha Hb) as [H|H]; [exact H|].
    exfalso. apply (before_exclusive a b _ Hn' H').
    apply step_keeps_order; assumption.
Qed.

Lemma reachable_present a b s0 s :
  present a b s0 ->
  reachable clock uuidv4 (fun op s => present a b (step clock uuidv4 op s)) s0 s ->
  present a b s.
Proof. intros H0 R. destruct R; assumption. Qed.

End ContainerFacts.

(** C1.  Deleting the category [c] keeps, in their order, exactly the
    categories whose id is not [c]; position by position, a task whose
    [categoryId] is [c] comes out with [categoryId] undefined and every other
    field as it was, and any other task comes out as it was. *)
Theorem deleteCategory_clears_references (c : string) (s : State) :
  let s' := deleteCategory c s in
  (forall x, x ∈ categories s' <-> x ∈ categories s /\ Category.id x <> c) /\
  sublist (categories s') (categories s) /\
  Forall2
    (fun t t' =>
       if decide (Task.categoryId t = Some c)
       then Task.categoryId t' = None /\ same_but_categoryId t t'
       else t' = t)
    (tasks s) (tasks s').
Proof.
  cbn. split; [|split].
  - intros x. unfold deleteCategory_filter.
    rewrite !list_elem_of_In, filter_In, negb_true_iff, String.eqb_neq. tauto.
  - unfold deleteCategory_filter. induction (categories s) as [|x l IH]; cbn.
    + constructor.
    + destruct (negb _); [apply sublist_skip|apply sublist_cons]; exact IH.
  - unfold deleteCategory_map.
    induction (tasks s) as [|t l IH]; cbn; constructor; [|exact IH].
    unfold categoryId_is. destruct (Task.categoryId t) as [d|] eqn:E.
    + destruct (String.eqb d c) eqn:Ed.
      * apply String.eqb_eq in Ed. subst d. rewrite decide_True by reflexivity.
        split; [reflexivity|]. repeat split.
      * apply String.eqb_neq in Ed. rewrite decide_False by congruence.
        reflexivity.
    + rewrite decide_False by discriminate. reflexivity.
Qed.

(** C2, as amended.  Updating the task at position [k], whose id is [id],
    leaves the collection at its length and that task at position [k]; each
    of its fields other than [updatedAt], the identifier included, is the
    patch's value when the patch mentions the field and the old value when
    it does not; [updatedAt] is a reading of the clock made during the
    update, whatever the patch says; the tasks with another id are as they
    were. *)
Theorem updateTask_merges_patch (clock : nat -> Z) (id : string) (p : Patch.t)
    (s : State) (k : nat) (t : Task.t) :
  tasks s !! k = Some t -> Task.id t = id ->
  let s' := updateTask clock id p s in
  length (tasks s') = length (tasks s) /\
  (exists t' m,
      tasks s' !! k = Some t' /\
      (reads s <= m < reads s')%nat /\
      Task.updatedAt t' = ValidDate (clock m) /\
      patched (Task.id t) (Task.id t') (Patch.id p) /\
      patched (Task.title t) (Task.title t') (Patch.title p) /\
      patched (Task.description t) (Task.description t') (Patch.description p) /\
      patched (Task.createdAt t) (Task.createdAt t') (Patch.createdAt p) /\
      patched (Task.dueDate t) (Task.dueDate t') (Patch.dueDate p) /\
      patched (Task.priority t) (Task.priority t') (Patch.priority p) /\
      patched (Task.status t) (Task.status t') (Patch.status p) /\
      patched (Task.categoryId t) (Task.categoryId t') (Patch.categoryId p)) /\
  (forall j u, tasks s !! j = Some u -> Task.id u <> id ->
               tasks s' !! j = Some u).
Proof.
  intros Hk Hid s'. subst s'.
  rewrite tasks_updateTask, reads_updateTask.
  split; [apply updateTask_map_length|split].
  - destruct (updateTask_map_lookup clock id p (tasks s) (reads s) k t Hk)
      as [[Hne _]|[_ (m & Hm & Hl)]]; [contradiction|].
    exists (mergeTask t p (newDate clock m)), m.
    split; [exact Hl|]. split; [exact Hm|]. split; [reflexivity|].
    unfold patched, mergeTask, spread; cbn.
    destruct p as [pi pt pd pc pu pdd pp ps pcat]; cbn.
    repeat split;
      match goal with
      | |- match ?o with _ => _ end => destruct o; reflexivity
      end.
  - intros j u Hj Hne.
    destruct (updateTask_map_lookup clock id p (tasks s) (reads s) j u Hj)
      as [[_ Hl]|[He _]]; [exact Hl|contradiction].
Qed.

(** C2, witness: marking the first of two tasks completed. *)
Lemma updateTask_merges_patch_witness :
  exists t',
    tasks (updateTask tick "a" (patch_status completed) twoTasks) !! 0%nat
    = Some t' /\
    Task.status t' = completed /\ Task.id t' = "a" /\
    Task.title t' = "Buy groceries".
Proof.
  destruct (updateTask_merges_patch tick "a" (patch_status completed)
              twoTasks 0 (sampleTask "a" "Buy groceries") eq_refl eq_refl)
    as (_ & (t' & m & H1 & _ & _ & H2 & H3 & _ & _ & _ & _ & H4 & _) & _).
  exists t'. repeat split; assumption.
Defined.

(** C2, counterexample: a patch is a [Partial<Task>] and may carry an [id];
    the task updated then does not keep its identifier. *)
Lemma updateTask_patch_renames :
  let s := mkState [sampleTask "a" "Buy groceries"] [] [] 0 0 in
  let s' := updateTask tick "a" (patch_id "b") s in
  exists t t', tasks s !! 0%nat = Some t /\ Task.id t = "a" /\
               tasks s' !! 0%nat = Some t' /\ Task.id t' = "b" /\
               Task.id t' <> Task.id t.
Proof. eexists _, _. cbn. repeat split. discriminate. Qed.

(** C6.  [addTask] evaluates [new Date()] once for [createdAt] and once more
    for [updatedAt]: on a clock that moves on by a millisecond between the
    two evaluations the new task's two timestamps differ. *)
Theorem addTask_reads_clock_twice :
  let s' := addTask tick letters (sampleNew "Buy milk") initialState in
  exists t, tasks s' = [t] /\
            Task.createdAt t = ValidDate 1700000000000 /\
            Task.updatedAt t = ValidDate 1700000000001 /\
            Task.createdAt t <> Task.updatedAt t.
Proof. eexists. cbn. repeat split. discriminate. Qed.

(** C7, counterexample: with distinct identifiers ["a"] and ["b"], updating
    ["a"] with the patch [{ id: "b" }] leaves two tasks called ["b"]. *)
Lemma update_breaks_unique_ids :
  let s0 := twoTasks in
  let s := step tick letters (UpdateTask "a" (patch_id "b")) s0 in
  NoDup (ids (tasks s0)) /\
  reachable tick letters (fresh_draw letters) s0 s /\
  ids (tasks s) = ["b"; "b"] /\
  (NoDup (ids (tasks s)) -> False).
Proof.
  intros s0 s. split; [|split; [|split]].
  - by_decision.
  - apply reachable_step; [apply reachable_refl|exact I].
  - reflexivity.
  - cbn. intros H. apply NoDup_cons in H as [H _]. apply H. constructor.
Qed.

(** C7, as amended.  From a state whose task identifiers are pairwise
    distinct, every sequence of requests (add, update and delete task; add,
    update and delete category) in which the generator hands each added task
    an identifier no task has, and in which no update patch changes the
    identifier, ends in a state whose task identifiers are pairwise
    distinct. *)
Theorem ids_stay_unique (clock : nat -> Z) (uuidv4 : nat -> string)
    (s0 s : State) :
  NoDup (ids (tasks s0)) ->
  reachable clock uuidv4
            (fun op s => fresh_draw uuidv4 op s /\ keeps_id op) s0 s ->
  NoDup (ids (tasks s)).
Proof.
  intros H0 R. induction R as [|s op R IH [Hf Hk]]; [exact H0|].
  apply step_keeps_ids_unique; assumption.
Qed.

(** C7, witness: add a task, mark ["a"] completed, delete ["a"], delete a
    category. *)
Lemma ids_stay_unique_witness :
  NoDup (ids (tasks
    (step tick letters (DeleteCategory "1")
       (step tick letters (DeleteTask "a")
          (step tick letters (UpdateTask "a" (patch_status completed))
             (step tick letters (AddTask (sampleNew "Buy milk")) twoTasks)))))).
Proof.
  apply (ids_stay_unique tick letters twoTasks).
  - by_decision.
  - repeat (apply reachable_step); try apply reachable_refl; cbn.
    + split; [by_decision|exact I].
    + split; [exact I|reflexivity].
    + split; exact I.
    + split; exact I.
Defined.

(** C8.  For an identifier no task has, [deleteTask] and [updateTask] (with
    any patch) leave the task collection as it is; and every operation ends
    by raising one success notification: none reports an error, each returns
    the next state. *)
Theorem absent_id_is_tolerated (clock : nat -> Z) (uuidv4 : nat -> string)
    (i : string) (s : State) :
  i ∉ ids (tasks s) ->
  tasks (deleteTask i s) = tasks s /\
  (forall p, tasks (updateTask clock i p s) = tasks s) /\
  (forall op s0, exists message,
      toasts (step clock uuidv4 op s0) = toasts s0 ++ [toast_success message]).
Proof.
  intros H. split; [|split].
  - cbn. apply deleteTask_filter_absent, H.
  - intros p.
    rewrite tasks_updateTask, updateTask_map_absent by exact H. reflexivity.
  - intros op s0. destruct op; cbn; try (eexists; reflexivity).
    unfold updateTask. destruct (updateTask_map _ _ _ _ _).
    eexists; reflexivity.
Qed.

(** C8, witness: no task is called ["zz"]. *)
Lemma absent_id_is_tolerated_witness :
  tasks (deleteTask "zz" twoTasks) = tasks twoTasks /\
  tasks (updateTask tick "zz" (patch_status completed) twoTasks)
  = tasks twoTasks.
Proof.
  destruct (absent_id_is_tolerated tick letters "zz" twoTasks) as (H1 & H2 & _).
  - by_decision.
  - split; [exact H1|apply H2].
Defined.

(** C10.  [addTask] puts the new task after all the others; [updateTask]
    and [deleteCategory] leave every task, updated or not, at its position;
    [deleteTask] leaves the remaining tasks in the order they were in.
    Consequently, along any sequence of requests through states in which the
    identifiers are pairwise distinct and [a] and [b] are both present, [a]
    stands before [b] at the end exactly when it did at the start. *)
Theorem relative_order_is_kept (clock : nat -> Z) (uuidv4 : nat -> string) :
  (forall task s,
      exists t, tasks (addTask clock uuidv4 task s) = tasks s ++ [t]) /\
  (forall i p s,
      Forall2
        (fun t t' =>
           t' = t \/ exists m, t' = mergeTask t p (ValidDate (clock m)))
        (tasks s) (tasks (updateTask clock i p s))) /\
  (forall i s, sublist (tasks (deleteTask i s)) (tasks s)) /\
  (forall c s,
      Forall2 (fun t t' => t' = t \/ t' = clearCategory t)
              (tasks s) (tasks (deleteCategory c s))) /\
  (forall a b s0 s,
      present a b s0 ->
      reachable clock uuidv4
                (fun op s => present a b (step clock uuidv4 op s)) s0 s ->
      before a b (ids (tasks s0)) <-> before a b (ids (tasks s))).
Proof.
  split; [|split; [|split; [|split]]].
  - intros task s. eexists. reflexivity.
  - intros i p s. rewrite tasks_updateTask. generalize (reads s).
    induction (tasks s) as [|t l IH]; intros n; cbn; [constructor|].
    destruct (String.eqb (Task.id t) i).
    + specialize (IH (S n)).
      destruct (updateTask_map clock i p l (S n)); cbn in *.
      constructor; [right; exists n; reflexivity|exact IH].
    + specialize (IH n). destruct (updateTask_map clock i p l n); cbn in *.
      constructor; [left; reflexivity|exact IH].
  - intros i s. cbn. unfold deleteTask_filter.
    induction (tasks s) as [|t l IH]; cbn; [constructor|].
    destruct (negb _); [apply sublist_skip|apply sublist_cons]; exact IH.
  - intros c s. cbn. unfold deleteCategory_map.
    induction (tasks s) as [|t l IH]; cbn; constructor; [|exact IH].
    destruct (categoryId_is c t); auto.
  - intros a b s0 s H0 R. induction R as [|s op R IH Hok]; [reflexivity|].
    rewrite IH. apply step_order_iff; [|exact Hok].
    apply (reachable_present clock uuidv4 a b s0); assumption.
Qed.

(** C10, witness: ["a"] stays before ["b"] while a task is added, ["b"] is
    marked completed and the added task is deleted. *)
Lemma relative_order_is_kept_witness :
  before "a" "b" (ids (tasks twoTasks)) <->
  before "a" "b" (ids (tasks
    (step tick letters (DeleteTask "c")
       (step tick letters (UpdateTask "b" (patch_status completed))
          (step tick letters (AddTask (sampleNew "Buy milk")) twoTasks))))).
Proof.
  apply (proj2 (proj2 (proj2 (proj2 (relative_order_is_kept tick letters))))).
  - unfold present. repeat split; by_decision.
  - repeat (apply reachable_step); try apply reachable_refl;
      unfold present; repeat split; by_decision.
Defined.

(** ** The derived view builder *)

(** *** Searching *)

Lemma startsWith_spec s : forall sub,
  startsWith s sub = true <-> exists post, s = sub +:+ post.
Proof.
  induction s as [|a s IH]; intros [|b sub]; cbn.
  - split; [exists ""; reflexivity|reflexivity].
  - split; [discriminate|intros [post H]; discriminate].
  - split; [exists (String a s); reflexivity|reflexivity].
  - rewrite andb_true_iff, Ascii.eqb_eq, IH. split.
    + intros [-> [post ->]]. exists post. reflexivity.
    + intros [post H]. injection H as -> ->.
      split; [reflexivity|exists post; reflexivity].
Qed.

(** [includes] decides occurrence. *)
Lemma includes_spec s : forall sub,
  includes s sub = true <-> occurs_in sub s.
Proof.
  unfold occurs_in. induction s as [|a s IH]; intros sub.
  - cbn [includes]. rewrite orb_false_r, startsWith_spec. split.
    + intros [post H]. exists "", post. exact H.
    + intros ([|c pre] & post & H); [exists post; exact H|discriminate].
  - cbn [includes]. rewrite orb_true_iff, startsWith_spec, IH. split.
    + intros [[post H]|(pre & post & H)].
      * exists "", post. exact H.
      * exists (String a pre), post. cbn. rewrite H. reflexivity.
    + intros ([|c pre] & post & H).
      * left. exists post. exact H.
      * right. cbn in H. injection H as -> ->. exists pre, post. reflexivity.
Qed.

Lemma matchesSearch_spec q t :
  matchesSearch q t = true <->
  q = "" \/ occurs_in (toLowerCase q) (toLowerCase (Task.title t)) \/
  exists d, Task.description t = Some d /\
            occurs_in (toLowerCase q) (toLowerCase d).
Proof.
  unfold matchesSearch.
  rewrite !orb_true_iff, String.eqb_eq, includes_spec.
  destruct (Task.description t) as [d|].
  - rewrite includes_spec. split.
    + intros [[H|H]|H]; auto. right. right. exists d. auto.
    + intros [H|[H|(d' & [= <-] & H)]]; auto.
  - split.
    + intros [[H|H]|H]; auto. discriminate.
    + intros [H|[H|(d' & H & _)]]; auto. discriminate.
Qed.

Lemma matchesPriority_spec fp t :
  matchesPriority fp t = true <->
  fp = "all" \/ fp = Priority_str (Task.priority t).
Proof.
  unfold matchesPriority. rewrite orb_true_iff, !String.eqb_eq.
  intuition congruence.
Qed.

(** The values [!task.categoryId] holds for. *)
Lemma truthy_false (o : option string) :
  truthy o = false <-> o = None \/ o = Some "".
Proof.
  destruct o as [[|a s]|]; cbn; split; auto; try discriminate.
  intros [H|H]; discriminate.
Qed.

Lemma matchesCategory_spec fc t :
  matchesCategory fc t = true <->
  fc = "all" \/
  (fc = "none" /\ (Task.categoryId t = None \/ Task.categoryId t = Some "")) \/
  Task.categoryId t = Some fc.
Proof.
  unfold matchesCategory.
  rewrite !orb_true_iff, andb_true_iff, negb_true_iff, !String.eqb_eq,
    truthy_false.
  destruct (Task.categoryId t) as [c|].
  - rewrite String.eqb_eq. intuition congruence.
  - intuition congruence.
Qed.

(** C5, as amended.  A task is in the filtered list exactly when it is in
    the collection and the three predicates hold: the search text is empty,
    or its lower-case form occurs in the lower-case form of the title or of
    the description; the priority selection is ["all"] or the task's
    priority; the category selection is ["all"], or is ["none"] while the
    task's [categoryId] is undefined or the empty string, or is the task's
    [categoryId].  And of two tasks titled "Buy groceries" and "Pay bills",
    the second without "groceries" in its description, searching
    "groceries" keeps exactly the first. *)
Theorem filteredTasks_spec :
  (forall (tasks : list Task.t) (q fp fc : string) (t : Task.t),
      t ∈ filteredTasks tasks q fp fc <->
      t ∈ tasks /\
      (q = "" \/ occurs_in (toLowerCase q) (toLowerCase (Task.title t)) \/
       exists d, Task.description t = Some d /\
                 occurs_in (toLowerCase q) (toLowerCase d)) /\
      (fp = "all" \/ fp = Priority_str (Task.priority t)) /\
      (fc = "all" \/
       (fc = "none" /\
        (Task.categoryId t = None \/ Task.categoryId t = Some "")) \/
       Task.categoryId t = Some fc)) /\
  (forall t1 t2 : Task.t,
      Task.title t1 = "Buy groceries" -> Task.title t2 = "Pay bills" ->
      (forall d, Task.description t2 = Some d ->
                 ~ occurs_in "groceries" (toLowerCase d)) ->
      filteredTasks [t1; t2] "groceries" "all" "all" = [t1]).
Proof.
  split.
  - intros tasks q fp fc t. unfold filteredTasks.
    rewrite list_elem_of_In, filter_In, <- list_elem_of_In, !andb_true_iff.
    rewrite matchesSearch_spec, matchesPriority_spec, matchesCategory_spec.
    tauto.
  - intros t1 t2 H1 H2 Hd. unfold filteredTasks. cbn [List.filter].
    assert (M1 : matchesSearch "groceries" t1 = true).
    { unfold matchesSearch. rewrite H1. reflexivity. }
    assert (M2 : matchesSearch "groceries" t2 = false).
    { apply not_true_is_false. rewrite matchesSearch_spec.
      intros [H|[H|(d & Hd1 & Hd2)]].
      - discriminate.
      - rewrite H2 in H. apply includes_spec in H. discriminate.
      - exact (Hd d Hd1 Hd2). }
    rewrite M1, M2. reflexivity.
Qed.

(** C5, witness: the two tasks of the specification's example. *)
Lemma filteredTasks_spec_witness :
  filteredTasks [sampleTask "a" "Buy groceries"; sampleTask "b" "Pay bills"]
                "groceries" "all" "all"
  = [sampleTask "a" "Buy groceries"].
Proof.
  apply (proj2 filteredTasks_spec); [reflexivity|reflexivity|].
  intros d H. discriminate.
Defined.

(** C5, counterexample: under the selection ["none"] the filter lets a task
    through that has a [categoryId], the empty string, which is not the
    selection either.  And of two tasks titled "Buy groceries" and "Pay
    bills", searching "groceries" keeps both when the description of the
    second mentions groceries. *)
Lemma filter_none_passes_empty_categoryId :
  filteredTasks [emptyCategoryId] "" "all" "none" = [emptyCategoryId] /\
  ("none" = "all" -> False) /\
  (Task.categoryId emptyCategoryId = None -> False) /\
  (Task.categoryId emptyCategoryId = Some "none" -> False) /\
  Task.title describedTask = "Pay bills" /\
  filteredTasks [sampleTask "a" "Buy groceries"; describedTask]
                "groceries" "all" "all"
  = [sampleTask "a" "Buy groceries"; describedTask].
Proof. repeat split; discriminate. Qed.

(** The search folds the case of accented letters too: the lower-case
    accented letter finds the title written in upper case. *)
Lemma search_folds_accented_letters :
  toLowerCase accentedTitle = "caf" +:+ accentedQuery /\
  filteredTasks [sampleTask "a" accentedTitle] accentedQuery "all" "all"
  = [sampleTask "a" accentedTitle].
Proof. split; reflexivity. Qed.

(** Lower-casing, unit by unit: the units of the two upper-case ranges move
    up by 32, and every other unit stays. *)
Lemma toLowerCase_ascii_spec (c : ascii) :
  let n := nat_of_ascii c in
  nat_of_ascii (toLowerCase_ascii c) =
  if decide ((65 <= n <= 90)%nat \/ ((192 <= n <= 222)%nat /\ n <> 215%nat))
  then (n + 32)%nat else n.
Proof.
  cbn zeta. unfold toLowerCase_ascii.
  destruct (decide _) as [H|H].
  - replace (_ || _) with true.
    + apply nat_ascii_embedding. lia.
    + symmetry. apply orb_true_iff. destruct H as [H|[H H']].
      * left. apply andb_true_iff. split; apply Nat.leb_le; lia.
      * right. rewrite !andb_true_iff, negb_true_iff. repeat split.
        -- apply Nat.leb_le; lia.
        -- apply Nat.leb_le; lia.
        -- apply Nat.eqb_neq, H'.
  - replace (_ || _) with false; [reflexivity|].
    symmetry. apply not_true_is_false. intros E. apply H.
    apply orb_true_iff in E as [E|E].
    + apply andb_true_iff in E as [E1 E2].
      apply Nat.leb_le in E1, E2. left. lia.
    + rewrite !andb_true_iff, negb_true_iff in E. destruct E as [[E1 E2] E3].
      apply Nat.leb_le in E1, E2. apply Nat.eqb_neq in E3. right. lia.
Qed.

(** *** Grouping by category *)

Lemma bucketOf_cons key t l :
  bucketOf key (t :: l) =
  if String.eqb (bucketKey t) key then t :: bucketOf key l else bucketOf key l.
Proof. reflexivity. Qed.

(** The first loop (lines 224-226). *)
Lemma categories_fold_lookup (cats : list Category.t) :
  forall (r : gmap string (list Task.t)) (k : string),
  fold_left (fun result cat => <[Category.id cat := []]> result) cats r !! k =
  if decide (k ∈ map Category.id cats) then Some [] else r !! k.
Proof.
  induction cats as [|c cats IH]; intros r k; cbn [fold_left map].
  - rewrite decide_False by apply not_elem_of_nil. reflexivity.
  - rewrite IH. destruct (decide (k ∈ map Category.id cats)) as [H|H].
    + rewrite decide_True by (apply elem_of_cons; auto). reflexivity.
    + destruct (decide (k = Category.id c)) as [->|Hk].
      * rewrite decide_True by (apply elem_of_cons; auto).
        apply lookup_insert_eq.
      * rewrite decide_False by (rewrite elem_of_cons; tauto).
        apply lookup_insert_ne. congruence.
Qed.

(** One turn of the second loop (lines 230-234). *)
Lemma push_lookup (r : gmap string (list Task.t)) (t : Task.t) (k : string) :
  push (bucketKey t) t
       match r !! bucketKey t with
       | None => <[bucketKey t := []]> r
       | Some _ => r
       end !! k =
  if decide (bucketKey t = k) then Some (default [] (r !! k) ++ [t])
  else r !! k.
Proof.
  unfold push. destruct (decide (bucketKey t = k)) as [<-|Hk].
  - rewrite lookup_alter_eq. destruct (r !! bucketKey t) as [b|] eqn:E.
    + rewrite E. reflexivity.
    + rewrite lookup_insert_eq. reflexivity.
  - rewrite lookup_alter_ne by exact Hk.
    destruct (r !! bucketKey t); [reflexivity|]. apply lookup_insert_ne, Hk.
Qed.

(** The second loop (lines 229-235). *)
Lemma tasks_fold_lookup (l : list Task.t) :
  forall (r : gmap string (list Task.t)) (k : string),
  fold_left
    (fun result task =>
       let categoryId := bucketKey task in
       let result :=
         match result !! categoryId with
         | None => <[categoryId := []]> result
         | Some _ => result
         end in
       push categoryId task result) l r !! k =
  match r !! k with
  | Some b => Some (b ++ bucketOf k l)
  | None => if decide (k ∈ map bucketKey l) then Some (bucketOf k l) else None
  end.
Proof.
  induction l as [|t l IH]; intros r k; cbn [fold_left map].
  - destruct (r !! k); [rewrite app_nil_r; reflexivity|].
    rewrite decide_False by apply not_elem_of_nil. reflexivity.
  - rewrite IH, push_lookup, !bucketOf_cons.
    destruct (decide (bucketKey t = k)) as [Hk|Hk].
    + rewrite Hk, String.eqb_refl.
      destruct (r !! k) as [b|]; cbn [default].
      * rewrite <- app_assoc. reflexivity.
      * rewrite decide_True by (apply elem_of_cons; auto). reflexivity.
    + replace (String.eqb (bucketKey t) k) with false
        by (symmetry; apply String.eqb_neq; exact Hk).
      destruct (r !! k); [reflexivity|].
      destruct (decide (k ∈ map bucketKey l)) as [H|H].
      * rewrite decide_True by (apply elem_of_cons; auto). reflexivity.
      * rewrite decide_False
          by (rewrite elem_of_cons; intros [?|?]; congruence).
        reflexivity.
Qed.

Lemma groupByCategory_lookup cats l k :
  groupByCategory cats l !! k =
  if decide (k = "none" \/ k ∈ map Category.id cats \/ k ∈ map bucketKey l)
  then Some (bucketOf k l) else None.
Proof.
  unfold groupByCategory. rewrite tasks_fold_lookup, categories_fold_lookup.
  destruct (decide (k ∈ map Category.id cats)) as [Hc|Hc].
  - rewrite decide_True by tauto. reflexivity.
  - destruct (decide (k = "none")) as [->|Hn].
    + rewrite lookup_singleton_eq, decide_True by tauto. reflexivity.
    + rewrite lookup_singleton_ne by congruence.
      destruct (decide (k ∈ map bucketKey l)) as [H|H].
      * rewrite decide_True by tauto. reflexivity.
      * rewrite decide_False by tauto. reflexivity.
Qed.

(** C4, as amended.  When the category identifiers and the [categoryId]s of
    the filtered tasks are ordinary keys (no name a JavaScript object
    inherits from [Object.prototype]), the buckets of the category mode
    are: ["none"], one per existing category, and one per [categoryId] that
    a filtered task carries (the first two kinds are there even when
    empty).  Each bucket holds, in their order, the filtered tasks filed
    under its key.  A task with a non-empty [categoryId] is filed under
    that [categoryId], whether a category has it or not; a task whose
    [categoryId] is undefined or the empty string is filed under
    ["none"]. *)
Theorem groupByCategory_buckets (cats : list Category.t) (l : list Task.t) :
  ordinary_keys cats l ->
  let g := groupByCategory cats l in
  (forall k, is_Some (g !! k) <->
             k = "none" \/ k ∈ map Category.id cats \/ k ∈ map bucketKey l) /\
  (forall k b, g !! k = Some b ->
               b = List.filter (fun t => String.eqb (bucketKey t) k) l) /\
  (forall t, t ∈ l ->
     (forall c, Task.categoryId t = Some c -> c <> "" ->
                exists b, g !! c = Some b /\ t ∈ b) /\
     (Task.categoryId t = None \/ Task.categoryId t = Some "" ->
      exists b, g !! "none" = Some b /\ t ∈ b)).
Proof.
  intros _ g. subst g. split; [|split].
  - intros k. rewrite groupByCategory_lookup.
    destruct (decide _) as [H|H]; split; intros H'.
    + exact H.
    + eexists; reflexivity.
    + destruct H' as [? H']. discriminate.
    + contradiction.
  - intros k b. rewrite groupByCategory_lookup.
    destruct (decide _); [|discriminate]. intros [= <-]. reflexivity.
  - intros t Ht.
    assert (Hb : exists b,
               groupByCategory cats l !! bucketKey t = Some b /\ t ∈ b).
    { exists (bucketOf (bucketKey t) l). split.
      - rewrite groupByCategory_lookup, decide_True; [reflexivity|].
        right. right. apply list_elem_of_fmap. exists t. auto.
      - unfold bucketOf. rewrite list_elem_of_In, filter_In, <- list_elem_of_In.
        split; [exact Ht|apply String.eqb_refl]. }
    split.
    + intros c Hc Hne. unfold bucketKey in Hb. rewrite Hc in Hb.
      destruct c; [contradiction|exact Hb].
    + intros [H|H]; unfold bucketKey in Hb; rewrite H in Hb; exact Hb.
Qed.

(** C4, witness: a task of the category ["3"] and a task of a category
    that is gone. *)
Lemma groupByCategory_buckets_witness :
  exists b,
    groupByCategory defaultCategories
                    [danglingTask; Task.mk "t2" "Buy milk" None (ValidDate 0)
                                     (ValidDate 0) None low todo (Some "3")]
    !! "5" = Some b /\ danglingTask ∈ b.
Proof.
  refine (proj1 (proj2 (proj2 (groupByCategory_buckets defaultCategories _ _))
                   danglingTask _) "5" eq_refl _).
  - split; by_decision.
  - apply elem_of_cons. left. reflexivity.
  - discriminate.
Defined.

(** C4, counterexample: the task refers to the category ["5"], which does
    not exist; it is not put in the ["none"] bucket, which stays empty, but
    in a bucket ["5"] of its own. *)
Lemma dangling_reference_gets_own_bucket :
  let g := groupByCategory defaultCategories [danglingTask] in
  Task.categoryId danglingTask = Some "5" /\
  ("5" ∉ map Category.id defaultCategories) /\
  g !! "none" = Some [] /\
  g !! "5" = Some [danglingTask].
Proof.
  cbn zeta. split; [reflexivity|]. split; [by_decision|].
  rewrite !groupByCategory_lookup. split; reflexivity.
Qed.

(** *** Grouping by date *)

Lemma TimeClip_in_range t : Z.abs t <= maxTime -> TimeClip t = ValidDate t.
Proof.
  intros H. unfold TimeClip. apply Z.leb_le in H. rewrite H. reflexivity.
Qed.

Lemma setHours0_localDay tz t :
  setHours0 tz (ValidDate t) = TimeClip (localDay tz t * msPerDay - tz).
Proof.
  unfold setHours0, localDay. f_equal. unfold msPerDay.
  Z.div_mod_to_equations; lia.
Qed.

(** Where [dateBucket] puts a task that has a due date, when the starts of
    the days involved are representable time values: the last case takes
    the days after tomorrow and also the past days of completed tasks. *)
Lemma dateBucket_spec (tz now t : Z) (task : Task.t) :
  let day0 := localDay tz now in
  let day := localDay tz t in
  let today := setHours0 tz (ValidDate now) in
  Z.abs (day0 * msPerDay - tz) <= maxTime ->
  Z.abs (day0 * msPerDay - tz + msPerDay) <= maxTime ->
  Z.abs (day * msPerDay - tz) <= maxTime ->
  Task.dueDate task = Some (ValidDate t) ->
  dateBucket tz today (nextDay today) task =
    if (day <? day0)
       && negb (String.eqb (Status_str (Task.status task)) "completed")
    then "overdue"
    else if day =? day0 then "today"
    else if day =? day0 + 1 then "tomorrow"
    else "upcoming".
Proof.
  intros day0 day today H0 H1 H2 Hd. subst today.
  unfold dateBucket. rewrite Hd, !setHours0_localDay.
  fold day0 day. rewrite (TimeClip_in_range _ H0), (TimeClip_in_range _ H2).
  cbn [nextDay]. rewrite (TimeClip_in_range _ H1). cbn [Date_ltb getTime_eqb].
  unfold msPerDay in *.
  replace (day * 86400000 - tz <? day0 * 86400000 - tz) with (day <? day0)
    by (destruct (Z.ltb_spec day day0); symmetry;
        [apply Z.ltb_lt|apply Z.ltb_ge]; lia).
  replace (day * 86400000 - tz =? day0 * 86400000 - tz) with (day =? day0)
    by (destruct (Z.eqb_spec day day0); symmetry;
        [apply Z.eqb_eq|apply Z.eqb_neq]; lia).
  replace (day * 86400000 - tz =? day0 * 86400000 - tz + 86400000)
    with (day =? day0 + 1)
    by (destruct (Z.eqb_spec day (day0 + 1)); symmetry;
        [apply Z.eqb_eq|apply Z.eqb_neq]; lia).
  reflexivity.
Qed.

(** C3.  On 2023-11-14 (UTC), a completed task due on 2023-11-13 is put in
    the ["upcoming"] bucket, though its due date is before today; the other
    four buckets are empty.  The same task with status [todo] is put in
    ["overdue"]. *)
Theorem completed_past_due_is_upcoming :
  let now := tick 0 in
  let g := groupByDate 0 now [dueYesterday completed] in
  setHours0 0 (ValidDate now) = ValidDate 1699920000000 /\
  setHours0 0 (ValidDate 1699900000000) = ValidDate 1699833600000 /\
  g !! "upcoming" = Some [dueYesterday completed] /\
  g !! "overdue" = Some [] /\ g !! "today" = Some [] /\
  g !! "tomorrow" = Some [] /\ g !! "no-date" = Some [] /\
  groupByDate 0 now [dueYesterday todo] !! "overdue"
  = Some [dueYesterday todo].
Proof. vm_compute. repeat split; reflexivity. Qed.

(** ** The persistent store adapter *)

(** *** The calendar *)

(** [days_from_civil] undoes [civil_from_days], whose month and day are in
    range and whose year is within a 400-year era of the day's. *)
Lemma civil_from_days_spec day :
  match civil_from_days day with
  | (y, m, d) =>
      days_from_civil y m d = day /\ 1 <= m <= 12 /\ 1 <= d <= 31 /\
      (day + 719468) / 146097 * 400 <= y
      <= (day + 719468) / 146097 * 400 + 400
  end.
Proof.
  unfold civil_from_days.
  set (z := day + 719468).
  set (era := z / 146097). set (doe := z mod 146097).
  assert (Hz : z = 146097 * era + doe) by (apply Z.div_mod; lia).
  assert (Hdoe : 0 <= doe < 146097) by (apply Z.mod_pos_bound; lia).
  set (yoe := (doe - doe / 1460 + doe / 36524 - doe / 146096) / 365).
  set (doy := doe - (365 * yoe + yoe / 4 - yoe / 100)).
  assert (Hy : 0 <= yoe <= 399 /\ 0 <= doy <= 365)
    by (subst yoe doy; Z.div_mod_to_equations; lia).
  set (mp := (5 * doy + 2) / 153).
  set (d := doy - (153 * mp + 2) / 5 + 1).
  assert (Hm : 0 <= mp <= 11 /\ 1 <= d <= 31)
    by (subst mp d; Z.div_mod_to_equations; lia).
  set (m := if mp <? 10 then mp + 3 else mp - 9).
  set (y := yoe + era * 400).
  assert (Hmm : 1 <= m <= 12 /\ (if 2 <? m then m - 3 else m + 9) = mp
                /\ (if m <=? 2 then (if m <=? 2 then y + 1 else y) - 1
                    else (if m <=? 2 then y + 1 else y)) = y).
  { subst m.
    destruct (mp <? 10) eqn:E; [apply Z.ltb_lt in E|apply Z.ltb_ge in E].
    - replace (mp + 3 <=? 2) with false by (symmetry; apply Z.leb_gt; lia).
      replace (2 <? mp + 3) with true by (symmetry; apply Z.ltb_lt; lia). lia.
    - replace (mp - 9 <=? 2) with true by (symmetry; apply Z.leb_le; lia).
      replace (2 <? mp - 9) with false by (symmetry; apply Z.ltb_ge; lia).
      lia. }
  destruct Hmm as (Hm1 & Hm2 & Hm3).
  split; [|split; [lia|split; [lia|]]].
  - unfold days_from_civil. rewrite Hm3, Hm2. subst y.
    replace ((yoe + era * 400) / 400) with era
      by (Z.div_mod_to_equations; lia).
    replace ((yoe + era * 400) mod 400) with yoe
      by (Z.div_mod_to_equations; lia).
    subst d doy z. lia.
  - subst y. destruct (m <=? 2); lia.
Qed.

(** *** Digits *)

(** The ten digits, one by one. *)
Lemma digit_nat (k : nat) :
  (k < 10)%nat ->
  digit_val (digit (Z.of_nat k)) = Some (Z.of_nat k) /\
  digit (Z.of_nat k) <> "+"%char /\ digit (Z.of_nat k) <> "-"%char.
Proof.
  intros H.
  do 10 (destruct k as [|k]; [repeat split; discriminate|]). lia.
Qed.

Lemma digit_val_digit n : 0 <= n <= 9 -> digit_val (digit n) = Some n.
Proof.
  intros H. rewrite <- (Z2Nat.id n) by lia. apply digit_nat. lia.
Qed.

Lemma digit_not_sign n : 0 <= n <= 9 ->
  digit n <> "+"%char /\ digit n <> "-"%char.
Proof.
  intros H. rewrite <- (Z2Nat.id n) by lia. apply digit_nat. lia.
Qed.

Lemma append_String a s r : String a s +:+ r = String a (s +:+ r).
Proof. reflexivity. Qed.

Lemma append_Empty r : "" +:+ r = r.
Proof. reflexivity. Qed.

(** Reading back a number written on [w] digits. *)
Lemma readDigits_pad w : forall n acc rest,
  0 <= n < 10 ^ Z.of_nat w ->
  readDigits w acc (pad w n +:+ rest)
  = Some (acc * 10 ^ Z.of_nat w + n, rest).
Proof.
  induction w as [|w IH]; intros n acc rest Hn.
  - cbn. f_equal. f_equal. change (10 ^ Z.of_nat 0) with 1 in *. lia.
  - assert (Hp : 0 < 10 ^ Z.of_nat w) by (apply Z.pow_pos_nonneg; lia).
    assert (HS : 10 ^ Z.of_nat (S w) = 10 * 10 ^ Z.of_nat w)
      by (rewrite Nat2Z.inj_succ, Z.pow_succ_r; lia).
    rewrite HS in *.
    cbn [pad readDigits]. rewrite append_String.
    rewrite digit_val_digit by (Z.div_mod_to_equations; nia).
    rewrite IH by (apply Z.mod_pos_bound; lia).
    f_equal. f_equal.
    pose proof (Z.div_mod n (10 ^ Z.of_nat w)). nia.
Qed.

Lemma readDigits2 n rest : 0 <= n < 100 ->
  readDigits 2 0 (pad 2 n +:+ rest) = Some (n, rest).
Proof.
  intros H.
  rewrite readDigits_pad by (change (10 ^ Z.of_nat 2) with 100; lia).
  f_equal.
Qed.

Lemma readDigits3 n rest : 0 <= n < 1000 ->
  readDigits 3 0 (pad 3 n +:+ rest) = Some (n, rest).
Proof.
  intros H.
  rewrite readDigits_pad by (change (10 ^ Z.of_nat 3) with 1000; lia).
  f_equal.
Qed.

Lemma readYear_year_str y rest :
  -999999 <= y <= 999999 ->
  readYear (year_str y +:+ rest) = Some (y, rest).
Proof.
  intros Hy. unfold year_str.
  destruct ((0 <=? y) && (y <=? 9999)) eqn:E.
  - apply andb_true_iff in E as [E1 E2]. apply Z.leb_le in E1, E2.
    pose proof (readDigits_pad 4 y 0 rest) as R.
    change (10 ^ Z.of_nat 4) with 10000 in R. specialize (R ltac:(lia)).
    cbn [pad] in *. rewrite append_String in *.
    destruct (digit_not_sign (y / 10 ^ Z.of_nat 3)) as [Hp Hm].
    { change (10 ^ Z.of_nat 3) with 1000. Z.div_mod_to_equations; lia. }
    unfold readYear.
    destruct (digit (y / 10 ^ Z.of_nat 3)) as [[] [] [] [] [] [] [] []] eqn:D;
      try (exfalso; apply Hp; reflexivity);
      try (exfalso; apply Hm; reflexivity);
      rewrite R; f_equal; f_equal; lia.
  - apply andb_false_iff in E.
    pose proof (readDigits_pad 6 (Z.abs y) 0 rest) as R.
    change (10 ^ Z.of_nat 6) with 1000000 in R. specialize (R ltac:(lia)).
    destruct (y <? 0) eqn:N; [apply Z.ltb_lt in N|apply Z.ltb_ge in N].
    + rewrite append_String. cbn [readYear]. rewrite R.
      cbn [mbind option_bind].
      replace (0 * 1000000 + Z.abs y =? 0) with false
        by (symmetry; apply Z.eqb_neq; lia).
      f_equal. f_equal. lia.
    + rewrite append_String. cbn [readYear]. rewrite R. f_equal. f_equal. lia.
Qed.

Lemma expect_String c s : expect c (String c s) = Some s.
Proof. unfold expect. now rewrite Ascii.eqb_refl. Qed.

Ltac parse_separator :=
  rewrite append_String, append_Empty, expect_String; cbn [mbind option_bind].

(** [Date.parse] reads back what [toISOString] writes, for every time value
    a date can have. *)
Lemma Date_parse_toISOString t :
  Z.abs t <= maxTime -> Date_parse (toISOString t) = ValidDate t.
Proof.
  intros Ht. unfold toISOString, Date_parse.
  set (day := t / msPerDay). set (tod := t mod msPerDay).
  assert (Ht' : t = msPerDay * day + tod)
    by (apply Z.div_mod; unfold msPerDay; lia).
  assert (Htod : 0 <= tod < msPerDay)
    by (apply Z.mod_pos_bound; unfold msPerDay; lia).
  pose proof (civil_from_days_spec day) as C.
  destruct (civil_from_days day) as [[y m] d].
  destruct C as (Cd & Cm & Cdd & Cy).
  unfold maxTime in Ht. unfold msPerDay in *.
  assert (Hy : -999999 <= y <= 999999) by (Z.div_mod_to_equations; lia).
  rewrite readYear_year_str by exact Hy. cbn [mbind option_bind].
  parse_separator. rewrite readDigits2 by lia. cbn [mbind option_bind].
  parse_separator. rewrite readDigits2 by lia. cbn [mbind option_bind].
  parse_separator.
  rewrite readDigits2 by (Z.div_mod_to_equations; lia).
  cbn [mbind option_bind].
  parse_separator.
  rewrite readDigits2 by (Z.div_mod_to_equations; lia).
  cbn [mbind option_bind].
  parse_separator.
  rewrite readDigits2 by (Z.div_mod_to_equations; lia).
  cbn [mbind option_bind].
  parse_separator.
  rewrite readDigits3 by (Z.div_mod_to_equations; lia).
  cbn [mbind option_bind].
  rewrite expect_String. cbn [mbind option_bind].
  rewrite Cd.
  replace (day * 86400000 + tod / 3600000 * 3600000
           + tod / 60000 mod 60 * 60000
           + tod / 1000 mod 60 * 1000 + tod mod 1000) with t
    by (Z.div_mod_to_equations; lia).
  rewrite String.eqb_refl.
  repeat match goal with
    | |- context [?a <=? ?b] =>
        replace (a <=? b) with true by (symmetry; apply Z.leb_le; lia)
    | |- context [?a <? ?b] =>
        replace (a <? b) with true
          by (symmetry; apply Z.ltb_lt; Z.div_mod_to_equations; lia)
    end.
  cbn [andb]. unfold TimeClip, maxTime.
  replace (Z.abs t <=? 8640000000000000) with true
    by (symmetry; apply Z.leb_le; exact Ht).
  reflexivity.
Qed.

Lemma toISOString_not_empty t : Z.abs t <= maxTime -> toISOString t <> "".
Proof.
  intros H E. pose proof (Date_parse_toISOString t H) as P.
  rewrite E in P. discriminate.
Qed.

(** *** Tasks *)

Lemma Priority_of_str_str p : Priority_of_str (Priority_str p) = Some p.
Proof. destruct p; reflexivity. Qed.

Lemma Status_of_str_str s : Status_of_str (Status_str s) = Some s.
Proof. destruct s; reflexivity. Qed.

Lemma Date_valid_inv d :
  Date_valid d -> exists t, d = ValidDate t /\ Z.abs t <= maxTime.
Proof. destruct d as [t|]; [intros H; exists t; auto|contradiction]. Qed.

Lemma rehydrate_Task_toJSON t :
  Task_dates_valid t -> rehydrate (Task_toJSON t) = Some t.
Proof.
  destruct t as [i ti de c u du p s ca]. unfold Task_dates_valid. cbn.
  intros (Hc & Hu & Hd).
  apply Date_valid_inv in Hc as (tc & -> & Hc), Hu as (tu & -> & Hu).
  unfold rehydrate, Task_toJSON.
  cbn [Task.id Task.title Task.description Task.createdAt Task.updatedAt
       Task.dueDate Task.priority Task.status Task.categoryId Date_toJSON].
  destruct de as [de|], du as [du|], ca as [ca|];
    cbn [fmap option_fmap option_map optProp app].
  all: try (apply Date_valid_inv in Hd as (td & -> & Hd)).
  all: unfold requiredString, optionalString, rehydrateDate, rehydrateDueDate.
  all: cbn [getProp String.eqb Ascii.eqb Bool.eqb Date_toJSON
            mbind option_bind].
  all: rewrite ?Date_parse_toISOString by assumption.
  all: rewrite Priority_of_str_str, Status_of_str_str; cbn [mbind option_bind].
  all: try reflexivity.
  all: destruct (toISOString td) eqn:E;
    [exfalso; exact (toISOString_not_empty td Hd E)|reflexivity].
Qed.

(** C9, as amended.  A task collection in which every [createdAt],
    [updatedAt] and present [dueDate] is a valid date is loaded back from
    its serialization as it was: every field of every task, the dates and
    the absent optional fields included. *)
Theorem load_save_roundtrip (l : list Task.t) :
  Forall Task_dates_valid l -> loadTasks (saveTasks l) = Some l.
Proof.
  intros H. unfold loadTasks, saveTasks. apply mapM_Some.
  induction H as [|t l Ht Hl IH]; cbn; constructor; [|exact IH].
  apply rehydrate_Task_toJSON, Ht.
Qed.

(** C9, witness: a task with every optional field and a task with none. *)
Lemma load_save_roundtrip_witness :
  loadTasks (saveTasks [fullTask; sampleTask "b" "Pay bills"])
  = Some [fullTask; sampleTask "b" "Pay bills"].
Proof.
  apply load_save_roundtrip.
  repeat constructor; cbn; unfold maxTime; lia.
Defined.

(** C9, counterexample: an invalid date is serialized as [null]; loading
    turns the [null] of [createdAt] into the epoch and drops the [null] of
    [dueDate]. *)
Lemma invalid_dates_do_not_survive :
  saveTasks [neverStamped] =
    JArray [JObject [("id", JString "a"); ("title", JString "Buy groceries");
                     ("createdAt", JNull);
                     ("updatedAt", JString "1970-01-01T00:00:00.000Z");
                     ("dueDate", JNull);
                     ("priority", JString "medium");
                     ("status", JString "todo")]] /\
  loadTasks (saveTasks [neverStamped]) =
    Some [Task.mk "a" "Buy groceries" None (ValidDate 0) (ValidDate 0)
                  None medium todo None] /\
  (loadTasks (saveTasks [neverStamped]) = Some [neverStamped] -> False).
Proof. split; [reflexivity|split; [reflexivity|discriminate]]. Qed.

(** ** Further properties of the container, the components and the views *)


Lemma List_filter_length_le {A} (f : A -> bool) (l : list A) :
  (length (List.filter f l) <= length l)%nat.
Proof. induction l as [|x l IH]; cbn; [lia|]. destruct (f x); cbn; lia. Qed.

Lemma elem_of_deleteTask_filter i l t :
  t ∈ deleteTask_filter i l <-> t ∈ l /\ Task.id t <> i.
Proof.
  unfold deleteTask_filter.
  rewrite !list_elem_of_In, filter_In, negb_true_iff, String.eqb_neq. tauto.
Qed.

Lemma deleteTask_filter_length i l :
  NoDup (ids l) -> i ∈ ids l ->
  S (length (deleteTask_filter i l)) = length l.
Proof.
  induction l as [|t l IH]; cbn; intros Hn Hi.
  - inversion Hi.
  - apply NoDup_cons in Hn as [Hnot Hn].
    destruct (String.eqb (Task.id t) i) eqn:E; cbn.
    + apply String.eqb_eq in E. subst i.
      change (List.filter _ l) with (deleteTask_filter (Task.id t) l).
      rewrite deleteTask_filter_absent by exact Hnot. reflexivity.
    + apply String.eqb_neq in E.
      apply elem_of_cons in Hi as [Hi|Hi]; [congruence|].
      change (List.filter _ l) with (deleteTask_filter i l).
      rewrite IH by assumption. reflexivity.
Qed.

(** X1.  [deleteTask] keeps exactly the tasks whose id is not [i], in their
    order: afterwards no task has the id [i]; when the identifiers were
    pairwise distinct and [i] was one of them, the collection is shorter by
    exactly one task. *)
Theorem deleteTask_removes (i : string) (s : State) :
  let s' := deleteTask i s in
  (forall t, t ∈ tasks s' <-> t ∈ tasks s /\ Task.id t <> i) /\
  (forall t, t ∈ tasks s' -> Task.id t <> i) /\
  sublist (tasks s') (tasks s) /\
  (NoDup (ids (tasks s)) -> i ∈ ids (tasks s) ->
   S (length (tasks s')) = length (tasks s)).
Proof.
  cbn. split; [|split; [|split]].
  - intros t. apply elem_of_deleteTask_filter.
  - intros t Ht. apply elem_of_deleteTask_filter in Ht. tauto.
  - unfold deleteTask_filter. induction (tasks s) as [|t l IH]; cbn; [constructor|].
    destruct (negb _); [apply sublist_skip|apply sublist_cons]; exact IH.
  - apply deleteTask_filter_length.
Qed.

(** X1, witness: deleting ["a"] from two tasks. *)
Lemma deleteTask_removes_witness :
  S (length (tasks (deleteTask "a" twoTasks))) = length (tasks twoTasks).
Proof.
  apply (proj2 (proj2 (proj2 (deleteTask_removes "a" twoTasks)))); by_decision.
Defined.

Lemma deleteTask_filter_comm i j l :
  deleteTask_filter i (deleteTask_filter j l) =
  deleteTask_filter j (deleteTask_filter i l).
Proof.
  unfold deleteTask_filter. induction l as [|t l IH]; cbn; [reflexivity|].
  destruct (String.eqb (Task.id t) j) eqn:Ej, (String.eqb (Task.id t) i) eqn:Ei;
    cbn; rewrite ?Ej, ?Ei; cbn; rewrite ?IH; reflexivity.
Qed.

Lemma deleteTask_filter_idem i l :
  deleteTask_filter i (deleteTask_filter i l) = deleteTask_filter i l.
Proof.
  apply deleteTask_filter_absent. rewrite ids_deleteTask_filter.
  rewrite list_elem_of_In, filter_In, negb_true_iff, String.eqb_neq. tauto.
Qed.

(** X2.  Deleting the same identifier a second time changes nothing more,
    and two deletions give the same collection in either order. *)
Theorem deleteTask_composes (i j : string) (s : State) :
  tasks (deleteTask i (deleteTask i s)) = tasks (deleteTask i s) /\
  tasks (deleteTask i (deleteTask j s)) = tasks (deleteTask j (deleteTask i s)).
Proof. cbn. split; [apply deleteTask_filter_idem|apply deleteTask_filter_comm]. Qed.

(** X3.  Adding a task and then deleting the identifier it was given brings
    the collection back, provided no task already had that identifier. *)
Theorem addTask_then_deleteTask (clock : nat -> Z) (uuidv4 : nat -> string)
    (task : NewTask.t) (s : State) :
  uuidv4 (draws s) ∉ ids (tasks s) ->
  tasks (deleteTask (uuidv4 (draws s)) (addTask clock uuidv4 task s)) = tasks s.
Proof.
  intros H. cbn. unfold deleteTask_filter. rewrite List.filter_app. cbn.
  rewrite String.eqb_refl. cbn. rewrite app_nil_r.
  apply deleteTask_filter_absent, H.
Qed.

(** X3, witness: the generator hands out ["c"]. *)
Lemma addTask_then_deleteTask_witness :
  tasks (deleteTask "c" (addTask tick letters (sampleNew "Buy milk") twoTasks))
  = tasks twoTasks.
Proof.
  apply (addTask_then_deleteTask tick letters (sampleNew "Buy milk") twoTasks).
  by_decision.
Defined.

Section CategoryFacts.
Context (clock : nat -> Z) (uuidv4 : nat -> string).

Lemma category_ids_updateCategory id p l :
  map Category.id
      (map (fun c => if String.eqb (Category.id c) id
                     then mergeCategory c p else c) l) =
  map (fun x => if String.eqb x id then spread id (CategoryPatch.id p) else x)
      (map Category.id l).
Proof.
  induction l as [|c l IH]; cbn; [reflexivity|]. f_equal; [|exact IH].
  destruct (String.eqb (Category.id c) id) eqn:E; [|reflexivity].
  apply String.eqb_eq in E. cbn. rewrite E. reflexivity.
Qed.

Lemma category_ids_updateCategory_keeps id p l :
  spread id (CategoryPatch.id p) = id ->
  map Category.id
      (map (fun c => if String.eqb (Category.id c) id
                     then mergeCategory c p else c) l) =
  map Category.id l.
Proof.
  intros H. rewrite category_ids_updateCategory, H.
  rewrite <- (map_id (map Category.id l)) at 2. apply map_ext. intros x.
  destruct (String.eqb x id) eqn:E; [|reflexivity].
  apply String.eqb_eq in E. congruence.
Qed.

Lemma category_ids_deleteCategory_filter id l :
  map Category.id (deleteCategory_filter id l) =
  List.filter (fun x => negb (String.eqb x id)) (map Category.id l).
Proof.
  unfold deleteCategory_filter. induction l as [|c l IH]; cbn; [reflexivity|].
  destruct (String.eqb (Category.id c) id); cbn; [exact IH|f_equal; exact IH].
Qed.

Lemma step_keeps_category_ids_unique op s :
  category_safe uuidv4 op s ->
  NoDup (map Category.id (categories s)) ->
  NoDup (map Category.id (categories (step clock uuidv4 op s))).
Proof.
  intros Hs Hn. destruct op as [task|id p|id|c|id p|id]; cbn in *.
  - exact Hn.
  - unfold updateTask. destruct (updateTask_map _ _ _ _ _). exact Hn.
  - exact Hn.
  - rewrite map_app. cbn. apply NoDup_app. repeat split.
    + exact Hn.
    + intros x Hx Hx'. apply list_elem_of_singleton in Hx'. subst x.
      exact (Hs Hx).
    + apply NoDup_singleton.
  - rewrite category_ids_updateCategory_keeps by exact Hs. exact Hn.
  - rewrite category_ids_deleteCategory_filter. apply NoDup_List_filter, Hn.
Qed.

Lemma elem_of_deleteCategory_map c l t' :
  t' ∈ deleteCategory_map c l ->
  exists t, t ∈ l /\
    ((Task.categoryId t = Some c /\ t' = clearCategory t) \/
     (Task.categoryId t <> Some c /\ t' = t)).
Proof.
  unfold deleteCategory_map. intros H.
  apply list_elem_of_fmap in H as (t & -> & Ht). exists t. split; [exact Ht|].
  unfold categoryId_is. destruct (Task.categoryId t) as [d|] eqn:E.
  - destruct (String.eqb d c) eqn:Ed.
    + apply String.eqb_eq in Ed. subst d. left. auto.
    + apply String.eqb_neq in Ed. right. split; [congruence|reflexivity].
  - right. split; [discriminate|reflexivity].
Qed.

Lemma step_keeps_refs_valid op s :
  ref_safe op s -> refs_valid s -> refs_valid (step clock uuidv4 op s).
Proof.
  intros Hs Hv. destruct op as [task|id p|id|c|id p|id]; cbn in *.
  - intros t c Ht Hc. cbn in Ht. apply elem_of_app in Ht as [Ht|Ht].
    + exact (Hv t c Ht Hc).
    + apply list_elem_of_singleton in Ht. subst t. cbn in Hc. exact (Hs c Hc).
  - intros t c Ht Hc.
    assert (Hcat : categories (updateTask clock id p s) = categories s).
    { unfold updateTask. destruct (updateTask_map _ _ _ _ _). reflexivity. }
    rewrite Hcat. rewrite tasks_updateTask in Ht.
    apply list_elem_of_lookup in Ht as [k Hk].
    assert (Hlen : (k < length (tasks s))%nat).
    { rewrite <- (updateTask_map_length clock id p (tasks s) (reads s)).
      eapply lookup_lt_Some, Hk. }
    apply lookup_lt_is_Some in Hlen as [u Hu].
    destruct (updateTask_map_lookup clock id p (tasks s) (reads s) k u Hu)
      as [[_ Hl]|[_ (m & _ & Hl)]]; rewrite Hl in Hk; injection Hk as <-.
    + apply (Hv u c); [apply list_elem_of_lookup; eauto|exact Hc].
    + cbn in Hc. unfold spread in Hc.
      destruct (Patch.categoryId p) as [pc|] eqn:Ep.
      * subst pc. apply Hs. reflexivity.
      * apply (Hv u c); [apply list_elem_of_lookup; eauto|exact Hc].
  - intros t c Ht Hc. cbn in Ht. apply elem_of_deleteTask_filter in Ht as [Ht _].
    exact (Hv t c Ht Hc).
  - intros t d Ht Hd. cbn in *. rewrite map_app. apply elem_of_app. left.
    exact (Hv t d Ht Hd).
  - intros t c Ht Hc. cbn in *.
    rewrite category_ids_updateCategory_keeps by exact Hs. exact (Hv t c Ht Hc).
  - intros t c Ht Hc. cbn in *.
    apply elem_of_deleteCategory_map in Ht
      as (u & Hu & [[_ ->]|[Hne ->]]); [discriminate|].
    rewrite category_ids_deleteCategory_filter.
    rewrite list_elem_of_In, filter_In, <- list_elem_of_In, negb_true_iff,
      String.eqb_neq.
    split; [exact (Hv u c Hu Hc)|congruence].
Qed.

End CategoryFacts.

(** X4.  Category identifiers stay pairwise distinct along every sequence
    of requests in which the generator hands each added category an
    identifier no category has and no category patch changes the
    identifier. *)
Theorem category_ids_stay_unique (clock : nat -> Z) (uuidv4 : nat -> string)
    (s0 s : State) :
  NoDup (map Category.id (categories s0)) ->
  reachable clock uuidv4 (category_safe uuidv4) s0 s ->
  NoDup (map Category.id (categories s)).
Proof.
  intros H0 R. induction R as [|s op R IH Hs]; [exact H0|].
  apply step_keeps_category_ids_unique; assumption.
Qed.

(** X4, witness: a category is added, one renamed in place, one deleted. *)
Lemma category_ids_stay_unique_witness :
  NoDup (map Category.id (categories
    (step tick letters (DeleteCategory "2")
       (step tick letters
             (UpdateCategory "1" (CategoryPatch.mk None (Some "Office") None))
          (step tick letters (AddCategory (NewCategory.mk "Travel" "#8b5cf6"))
                twoTasks))))).
Proof.
  apply (category_ids_stay_unique tick letters twoTasks).
  - by_decision.
  - repeat (apply reachable_step); try apply reachable_refl; cbn.
    + by_decision.
    + reflexivity.
    + exact I.
Defined.

(** X5.  Referential integrity is kept: if every [categoryId] of a task is
    the id of a category, this is still so after any sequence of requests
    that add or patch tasks only with absent or existing category ids and
    never rename a category.  Deleting a category is always such a request:
    it clears the references it would leave dangling. *)
Theorem references_stay_valid (clock : nat -> Z) (uuidv4 : nat -> string)
    (s0 s : State) :
  refs_valid s0 ->
  reachable clock uuidv4 ref_safe s0 s ->
  refs_valid s.
Proof.
  intros H0 R. induction R as [|s op R IH Hs]; [exact H0|].
  apply step_keeps_refs_valid; assumption.
Qed.

(** X5, witness: a task of the category ["3"] is added, then the category is deleted. *)
Lemma references_stay_valid_witness :
  refs_valid
    (step tick letters (DeleteCategory "3")
       (step tick letters
             (AddTask (NewTask.mk "Buy milk" None None low todo (Some "3")))
             twoTasks)).
Proof.
  apply (references_stay_valid tick letters twoTasks).
  - intros t c Ht Hc. cbn in Ht.
    repeat (apply elem_of_cons in Ht as [->|Ht]; [discriminate Hc|]).
    inversion Ht.
  - repeat (apply reachable_step); try apply reachable_refl; cbn.
    + intros c [= <-]. by_decision.
    + exact I.
Defined.

Lemma updateCategory_absent id p l :
  id ∉ map Category.id l ->
  map (fun c => if String.eqb (Category.id c) id
                then mergeCategory c p else c) l = l.
Proof.
  induction l as [|c l IH]; cbn; intros H; [reflexivity|].
  apply not_elem_of_cons in H as [H1 H2].
  replace (String.eqb (Category.id c) id) with false
    by (symmetry; apply String.eqb_neq; congruence).
  f_equal. apply IH, H2.
Qed.

Lemma deleteCategory_filter_absent id l :
  id ∉ map Category.id l -> deleteCategory_filter id l = l.
Proof.
  unfold deleteCategory_filter.
  induction l as [|c l IH]; cbn; intros H; [reflexivity|].
  apply not_elem_of_cons in H as [H1 H2].
  replace (String.eqb (Category.id c) id) with false
    by (symmetry; apply String.eqb_neq; congruence).
  cbn. f_equal. apply IH, H2.
Qed.

Lemma deleteCategory_map_unreferenced id l :
  (forall t, t ∈ l -> Task.categoryId t <> Some id) ->
  deleteCategory_map id l = l.
Proof.
  unfold deleteCategory_map. induction l as [|t l IH]; cbn; intros H; [reflexivity|].
  f_equal.
  - unfold categoryId_is. pose proof (H t ltac:(left)) as Ht.
    destruct (Task.categoryId t) as [d|]; [|reflexivity].
    destruct (String.eqb d id) eqn:E; [|reflexivity].
    apply String.eqb_eq in E. congruence.
  - apply IH. intros u Hu. apply H. right. exact Hu.
Qed.

(** X6.  For an identifier no category has, [updateCategory] and
    [deleteCategory] leave the categories as they are; [deleteCategory]
    still clears every (dangling) reference to it, and leaves the tasks too
    as they are when none refers to it. *)
Theorem absent_category_is_tolerated (id : string) (s : State) :
  id ∉ map Category.id (categories s) ->
  (forall p, categories (updateCategory id p s) = categories s) /\
  categories (deleteCategory id s) = categories s /\
  (forall t, t ∈ tasks (deleteCategory id s) -> Task.categoryId t <> Some id) /\
  ((forall t, t ∈ tasks s -> Task.categoryId t <> Some id) ->
   tasks (deleteCategory id s) = tasks s).
Proof.
  intros H. cbn. split; [|split; [|split]].
  - intros p. apply updateCategory_absent, H.
  - apply deleteCategory_filter_absent, H.
  - intros t Ht.
    apply elem_of_deleteCategory_map in Ht as (u & _ & [[_ ->]|[Hne ->]]);
      [discriminate|exact Hne].
  - apply deleteCategory_map_unreferenced.
Qed.

(** X6, witness: no category is called ["9"] and no task refers to it. *)
Lemma absent_category_is_tolerated_witness :
  categories (deleteCategory "9" twoTasks) = categories twoTasks /\
  tasks (deleteCategory "9" twoTasks) = tasks twoTasks.
Proof.
  destruct (absent_category_is_tolerated "9" twoTasks) as (_ & H1 & _ & H2).
  - by_decision.
  - split; [exact H1|]. apply H2. intros t Ht. cbn in Ht.
    repeat (apply elem_of_cons in Ht as [->|Ht]; [discriminate|]).
    inversion Ht.
Defined.

Section CardFacts.
Context (clock : nat -> Z).

Lemma nextStatus_thrice st : nextStatus (nextStatus (nextStatus st)) = st.
Proof. destruct st; reflexivity. Qed.

Lemma clickStatus_at k s t :
  tasks s !! k = Some t ->
  exists m,
    tasks (clickStatus clock k s) !! k
    = Some (restamp t (nextStatus (Task.status t)) (ValidDate (clock m))).
Proof.
  intros Hk. unfold clickStatus. rewrite Hk. unfold toggleStatus.
  rewrite tasks_updateTask.
  destruct (updateTask_map_lookup clock (Task.id t)
              (patch_status (nextStatus (Task.status t))) (tasks s) (reads s) k t Hk)
    as [[Hne _]|[_ (m & _ & Hl)]]; [congruence|].
  unfold patch_status in Hl. exists m. rewrite Hl. destruct t; reflexivity.
Qed.

Lemma clickStatus_ids k s : ids (tasks (clickStatus clock k s)) = ids (tasks s).
Proof.
  unfold clickStatus. destruct (tasks s !! k) as [t|]; [|reflexivity].
  unfold toggleStatus. rewrite tasks_updateTask.
  apply ids_updateTask_keeps. reflexivity.
Qed.

Lemma clickStatus_elsewhere k s j u :
  NoDup (ids (tasks s)) -> j <> k -> tasks s !! j = Some u ->
  tasks (clickStatus clock k s) !! j = Some u.
Proof.
  intros Hn Hjk Hj. unfold clickStatus.
  destruct (tasks s !! k) as [t|] eqn:Hk; [|exact Hj].
  unfold toggleStatus. rewrite tasks_updateTask.
  destruct (updateTask_map_lookup clock (Task.id t)
              (patch_status (nextStatus (Task.status t))) (tasks s) (reads s) j u Hj)
    as [[_ Hl]|[He _]]; [exact Hl|].
  exfalso. apply Hjk.
  apply (NoDup_lookup (ids (tasks s)) j k (Task.id t) Hn); unfold ids;
    rewrite list_lookup_fmap; [rewrite Hj|rewrite Hk]; cbn; congruence.
Qed.

End CardFacts.

(** X7.  A click on the status button of a card moves its task to the next
    status, which differs from the current one, and changes nothing else but
    [updatedAt]; three clicks bring the status back.  The clicks never
    change an identifier, and with pairwise distinct identifiers they leave
    every other task as it is. *)
Theorem three_clicks_restore_status (clock : nat -> Z) (k : nat) (s : State)
    (t : Task.t) :
  tasks s !! k = Some t ->
  let s1 := clickStatus clock k s in
  let s3 := clickStatus clock k (clickStatus clock k s1) in
  (exists m, tasks s1 !! k
             = Some (restamp t (nextStatus (Task.status t)) (ValidDate (clock m)))) /\
  nextStatus (Task.status t) <> Task.status t /\
  (exists m, tasks s3 !! k = Some (restamp t (Task.status t) (ValidDate (clock m)))) /\
  ids (tasks s3) = ids (tasks s) /\
  (NoDup (ids (tasks s)) ->
   forall j u, j <> k -> tasks s !! j = Some u -> tasks s3 !! j = Some u).
Proof.
  intros Hk s1 s3. subst s1 s3.
  destruct (clickStatus_at clock k s t Hk) as [m1 H1].
  destruct (clickStatus_at clock k _ _ H1) as [m2 H2].
  destruct (clickStatus_at clock k _ _ H2) as [m3 H3].
  cbn [restamp Task.status] in H2, H3.
  split; [exists m1; exact H1|]. split; [destruct (Task.status t); discriminate|].
  split; [|split].
  - exists m3. rewrite H3, nextStatus_thrice. reflexivity.
  - rewrite !clickStatus_ids. reflexivity.
  - intros Hn j u Hjk Hj.
    repeat (apply clickStatus_elsewhere;
            [rewrite ?clickStatus_ids; exact Hn|exact Hjk|]).
    exact Hj.
Qed.

(** X7, witness: three clicks on the second card. *)
Lemma three_clicks_restore_status_witness :
  exists m,
    tasks (clickStatus tick 1 (clickStatus tick 1 (clickStatus tick 1 twoTasks)))
    !! 1%nat
    = Some (restamp (sampleTask "b" "Pay bills") todo (ValidDate (tick m))).
Proof.
  exact (proj1 (proj2 (proj2
    (three_clicks_restore_status tick 1 twoTasks (sampleTask "b" "Pay bills")
       eq_refl)))).
Defined.

(** *** Trimming *)

Lemma blank_nil : blank "".
Proof. constructor. Qed.

Lemma blank_String c s : blank (String c s) <-> isWhiteSpace c = true /\ blank s.
Proof.
  unfold blank. cbn. split.
  - intros H. inversion H; subst. auto.
  - intros [H1 H2]. constructor; assumption.
Qed.

Lemma trimStart_empty s : trimStart s = "" <-> blank s.
Proof.
  induction s as [|c s IH]; cbn.
  - split; [intros _; apply blank_nil|reflexivity].
  - rewrite blank_String. destruct (isWhiteSpace c).
    + rewrite IH. tauto.
    + split; [discriminate|intros [H _]; discriminate].
Qed.

Lemma trimStart_head s :
  trimStart s = "" \/
  exists c r, trimStart s = String c r /\ isWhiteSpace c = false.
Proof.
  induction s as [|c s IH]; cbn; [left; reflexivity|].
  destruct (isWhiteSpace c) eqn:E; [exact IH|]. right. eauto.
Qed.

Lemma trimEnd_empty s : trimEnd s = "" <-> blank s.
Proof.
  induction s as [|c s IH]; cbn.
  - split; [intros _; apply blank_nil|reflexivity].
  - rewrite blank_String, <- IH. destruct (trimEnd s).
    + destruct (isWhiteSpace c); split; try tauto; try discriminate.
      intros [H _]; discriminate.
    + split; [discriminate|intros [_ H]; discriminate].
Qed.

Lemma trim_empty s : trim s = "" <-> blank s.
Proof.
  unfold trim. rewrite trimEnd_empty. split.
  - intros H. apply trimStart_empty.
    destruct (trimStart_head s) as [E|(c & r & E & Hc)]; [exact E|].
    rewrite E in H. apply blank_String in H as [H _]. congruence.
  - intros H. apply trimStart_empty in H. rewrite H. apply blank_nil.
Qed.

Lemma trim_eqb s : String.eqb (trim s) "" = false <-> ~ blank s.
Proof. rewrite <- trim_empty, String.eqb_neq. tauto. Qed.

(** X8.  The task form declines to submit exactly when its title consists
    of white space only (the empty title included); the state is then left
    as it is. *)
Theorem TaskForm_rejects_blank_title (clock : nat -> Z) (uuidv4 : nat -> string)
    (editing : option Task.t) (f : TaskForm.t) (s : State) :
  let r := TaskForm_handleSubmit clock uuidv4 editing f s in
  (snd r = false <-> blank (TaskForm.title f)) /\
  (blank (TaskForm.title f) -> fst r = s).
Proof.
  cbn zeta. unfold TaskForm_handleSubmit.
  destruct (String.eqb (trim (TaskForm.title f)) "") eqn:E.
  - apply String.eqb_eq, trim_empty in E. cbn. tauto.
  - apply trim_eqb in E. split; [|tauto].
    destruct editing; cbn; split; try discriminate; tauto.
Qed.

(** X8, witness: a title of three spaces. *)
Lemma TaskForm_rejects_blank_title_witness :
  fst (TaskForm_handleSubmit tick letters None
         (TaskForm_handle (SetTitle "   ") (TaskForm_init None)) twoTasks)
  = twoTasks.
Proof.
  apply (proj2 (TaskForm_rejects_blank_title tick letters None
                  (TaskForm_handle (SetTitle "   ") (TaskForm_init None))
                  twoTasks)).
  repeat constructor.
Defined.

Lemma orUndefined_not_empty v : orUndefined v <> Some "".
Proof. destruct v; discriminate. Qed.

(** X9.  Opening the edit form on a task of the collection and submitting
    it untouched changes nothing of that task but [updatedAt], provided the
    title is not blank and the description is not the empty string. *)
Theorem edit_without_change_touches (clock : nat -> Z) (uuidv4 : nat -> string)
    (s : State) (k : nat) (t : Task.t) :
  tasks s !! k = Some t ->
  ~ blank (Task.title t) ->
  Task.description t <> Some "" ->
  let r := TaskForm_handleSubmit clock uuidv4 (Some t) (TaskForm_init (Some t)) s in
  snd r = true /\
  exists m, tasks (fst r) !! k
            = Some (restamp t (Task.status t) (ValidDate (clock m))).
Proof.
  intros Hk Hb Hd r. subst r. unfold TaskForm_handleSubmit.
  assert (Ht : TaskForm.title (TaskForm_init (Some t)) = Task.title t).
  { cbn. destruct (Task.title t); reflexivity. }
  rewrite Ht. apply trim_eqb in Hb. rewrite Hb. cbn [fst snd].
  split; [reflexivity|]. rewrite tasks_updateTask.
  destruct (updateTask_map_lookup clock (Task.id t)
              (TaskForm_patch (TaskForm_init (Some t))) (tasks s) (reads s) k t Hk)
    as [[Hne _]|[_ (m & _ & Hl)]]; [congruence|].
  exists m. rewrite Hl. f_equal.
  destruct t as [i ti de c u du p st ca]. cbn in *.
  unfold mergeTask, restamp. cbn. f_equal.
  - destruct ti; reflexivity.
  - destruct de as [[|a d]|]; [congruence|reflexivity|reflexivity].
Qed.

(** X9, witness: the second task, edited and submitted untouched. *)
Lemma edit_without_change_touches_witness :
  exists m,
    tasks (fst (TaskForm_handleSubmit tick letters
                  (Some (sampleTask "b" "Pay bills"))
                  (TaskForm_init (Some (sampleTask "b" "Pay bills"))) twoTasks))
    !! 1%nat
    = Some (restamp (sampleTask "b" "Pay bills") todo (ValidDate (tick m))).
Proof.
  refine (proj2 (edit_without_change_touches tick letters twoTasks 1
                   (sampleTask "b" "Pay bills") eq_refl _ _)).
  - intros H. apply trim_empty in H. discriminate.
  - discriminate.
Defined.

Lemma TaskForm_categoryId_invariant (events : list TaskFormEvent) :
  forall f, TaskForm.categoryId f <> Some "" ->
  TaskForm.categoryId (fold_left (fun f e => TaskForm_handle e f) events f)
  <> Some "".
Proof.
  induction events as [|e events IH]; intros f Hf; cbn [fold_left]; [exact Hf|].
  apply IH. destruct e; cbn; try exact Hf. apply orUndefined_not_empty.
Qed.

(** X10.  A task created through the form, whatever the user did to the
    form before submitting, is appended with the generated identifier; its
    title is not blank, and neither its description nor its [categoryId] is
    the empty string: empty values are stored as undefined. *)
Theorem form_created_task_is_normalised (clock : nat -> Z)
    (uuidv4 : nat -> string) (events : list TaskFormEvent) (s : State) :
  let f := fold_left (fun f e => TaskForm_handle e f) events (TaskForm_init None) in
  let r := TaskForm_handleSubmit clock uuidv4 None f s in
  snd r = true ->
  exists t, tasks (fst r) = tasks s ++ [t] /\
            Task.id t = uuidv4 (draws s) /\
            ~ blank (Task.title t) /\
            Task.description t <> Some "" /\
            Task.categoryId t <> Some "".
Proof.
  intros f r. subst r. unfold TaskForm_handleSubmit.
  destruct (String.eqb (trim (TaskForm.title f)) "") eqn:E; [discriminate|].
  intros _. cbn [fst]. eexists. split; [reflexivity|]. cbn.
  split; [reflexivity|]. split; [apply trim_eqb, E|].
  split; [apply orUndefined_not_empty|].
  subst f. apply TaskForm_categoryId_invariant. discriminate.
Qed.

(** X10, witness: a category is chosen and given up again, the description typed and erased. *)
Lemma form_created_task_is_normalised_witness :
  exists t,
    tasks (fst (TaskForm_handleSubmit tick letters None
                  (fold_left (fun f e => TaskForm_handle e f)
                             [SetTitle "Buy milk"; SelectCategory "3";
                              SelectCategory ""; SetDescription ""]
                             (TaskForm_init None))
                  twoTasks))
    = tasks twoTasks ++ [t] /\
    Task.id t = "c" /\ ~ blank (Task.title t) /\
    Task.description t <> Some "" /\ Task.categoryId t <> Some "".
Proof.
  apply (form_created_task_is_normalised tick letters
           [SetTitle "Buy milk"; SelectCategory "3"; SelectCategory "";
            SetDescription ""] twoTasks).
  reflexivity.
Defined.

(** X11.  The requests the card and the form issue never touch an
    identifier: a status click and a submitted edit leave the list of
    identifiers as it is, a submitted new task appends the generated
    identifier; so with a fresh generator the identifiers stay pairwise
    distinct. *)
Theorem card_and_form_keep_ids (clock : nat -> Z) (uuidv4 : nat -> string)
    (s : State) :
  (forall k, ids (tasks (clickStatus clock k s)) = ids (tasks s)) /\
  (forall t f,
      ids (tasks (fst (TaskForm_handleSubmit clock uuidv4 (Some t) f s)))
      = ids (tasks s)) /\
  (forall f, ~ blank (TaskForm.title f) ->
      ids (tasks (fst (TaskForm_handleSubmit clock uuidv4 None f s)))
      = ids (tasks s) ++ [uuidv4 (draws s)]) /\
  (NoDup (ids (tasks s)) -> uuidv4 (draws s) ∉ ids (tasks s) ->
   forall editing f,
     NoDup (ids (tasks (fst (TaskForm_handleSubmit clock uuidv4 editing f s))))).
Proof.
  assert (Hedit : forall t f,
      ids (tasks (fst (TaskForm_handleSubmit clock uuidv4 (Some t) f s)))
      = ids (tasks s)).
  { intros t f. unfold TaskForm_handleSubmit.
    destruct (String.eqb _ _); [reflexivity|]. cbn [fst].
    rewrite tasks_updateTask. apply ids_updateTask_keeps. reflexivity. }
  assert (Hadd : forall f, ~ blank (TaskForm.title f) ->
      ids (tasks (fst (TaskForm_handleSubmit clock uuidv4 None f s)))
      = ids (tasks s) ++ [uuidv4 (draws s)]).
  { intros f Hb. unfold TaskForm_handleSubmit. apply trim_eqb in Hb.
    rewrite Hb. cbn. unfold ids. rewrite map_app. reflexivity. }
  split; [intros k; apply clickStatus_ids|]. split; [exact Hedit|].
  split; [exact Hadd|].
  intros Hn Hf [t|] f.
  - rewrite Hedit. exact Hn.
  - unfold TaskForm_handleSubmit.
    destruct (String.eqb (trim (TaskForm.title f)) "") eqn:E; [exact Hn|].
    cbn. unfold ids. rewrite map_app. cbn. apply NoDup_app. repeat split.
    + exact Hn.
    + intros x Hx Hx'. apply list_elem_of_singleton in Hx'. subst x.
      exact (Hf Hx).
    + apply NoDup_singleton.
Qed.

(** X11, witness: a new task submitted to two tasks. *)
Lemma card_and_form_keep_ids_witness :
  NoDup (ids (tasks (fst (TaskForm_handleSubmit tick letters None
                            (TaskForm_handle (SetTitle "Buy milk")
                                             (TaskForm_init None))
                            twoTasks)))).
Proof.
  apply (proj2 (proj2 (proj2 (card_and_form_keep_ids tick letters twoTasks))));
    by_decision.
Defined.

(** X12.  The category form never changes a task; it declines to submit
    exactly when the name is blank, leaving the state as it is; a submitted
    edit leaves every category identifier as it is; a submitted new category
    is appended with the generated identifier and the form's name and
    color. *)
Theorem CategoryForm_submit (uuidv4 : nat -> string)
    (editing : option Category.t) (f : CategoryForm.t) (s : State) :
  let r := CategoryForm_handleSubmit uuidv4 editing f s in
  tasks (fst r) = tasks s /\
  (snd r = false <-> blank (CategoryForm.name f)) /\
  (blank (CategoryForm.name f) -> fst r = s) /\
  (forall c, editing = Some c ->
     map Category.id (categories (fst r)) = map Category.id (categories s)) /\
  (editing = None -> ~ blank (CategoryForm.name f) ->
   categories (fst r) =
   categories s ++ [Category.mk (uuidv4 (draws s)) (CategoryForm.name f)
                                (CategoryForm.color f)]).
Proof.
  cbn zeta. unfold CategoryForm_handleSubmit.
  destruct (String.eqb (trim (CategoryForm.name f)) "") eqn:E.
  - apply String.eqb_eq, trim_empty in E. cbn. repeat split; tauto.
  - apply trim_eqb in E. split; [destruct editing; reflexivity|].
    split; [destruct editing; cbn; split; try discriminate; tauto|].
    split; [tauto|]. split.
    + intros c ->. cbn. apply category_ids_updateCategory_keeps. reflexivity.
    + intros -> _. reflexivity.
Qed.

(** X12, witness: a new category "Travel". *)
Lemma CategoryForm_submit_witness :
  categories (fst (CategoryForm_handleSubmit letters None
                     (CategoryForm.mk "Travel" "#8b5cf6") twoTasks))
  = categories twoTasks ++ [Category.mk "c" "Travel" "#8b5cf6"].
Proof.
  refine (proj2 (proj2 (proj2 (proj2
    (CategoryForm_submit letters None (CategoryForm.mk "Travel" "#8b5cf6")
       twoTasks)))) eq_refl _).
  intros H. apply trim_empty in H. discriminate.
Defined.

(** *** Filtering, further *)

Lemma List_filter_all {A} (f : A -> bool) (l : list A) :
  (forall x, x ∈ l -> f x = true) -> List.filter f l = l.
Proof.
  induction l as [|x l IH]; cbn; intros H; [reflexivity|].
  rewrite (H x) by (left). f_equal. apply IH. intros y Hy. apply H. right. exact Hy.
Qed.

Lemma List_filter_idem {A} (f : A -> bool) (l : list A) :
  List.filter f (List.filter f l) = List.filter f l.
Proof.
  apply List_filter_all. intros x Hx.
  apply list_elem_of_In, filter_In in Hx. tauto.
Qed.

Lemma List_filter_sublist {A} (f : A -> bool) (l : list A) :
  sublist (List.filter f l) l.
Proof.
  induction l as [|x l IH]; cbn; [constructor|].
  destruct (f x); [apply sublist_skip|apply sublist_cons]; exact IH.
Qed.

(** X13.  With an empty search text and both selections on ["all"] the
    filter returns the whole collection; with any settings it returns tasks
    of the collection in their order, filtering its result again changes
    nothing, and an empty collection gives an empty result. *)
Theorem filteredTasks_frame (l : list Task.t) (q fp fc : string) :
  filteredTasks l "" "all" "all" = l /\
  sublist (filteredTasks l q fp fc) l /\
  filteredTasks (filteredTasks l q fp fc) q fp fc = filteredTasks l q fp fc /\
  filteredTasks [] q fp fc = [].
Proof.
  split; [|split; [|split]].
  - unfold filteredTasks. apply List_filter_all. reflexivity.
  - apply List_filter_sublist.
  - apply List_filter_idem.
  - reflexivity.
Qed.

Lemma toLowerCase_empty s : toLowerCase s = "" <-> s = "".
Proof. destruct s; cbn; split; try reflexivity; discriminate. Qed.

(** X14.  The search text bears on the result only through its lower-case
    form: two search texts that [toLowerCase] sends to the same string, as
    "Groceries" and "groceries", select the same tasks. *)
Theorem search_ignores_case_of_query (l : list Task.t) (q q' fp fc : string) :
  toLowerCase q = toLowerCase q' ->
  filteredTasks l q fp fc = filteredTasks l q' fp fc.
Proof.
  intros H. unfold filteredTasks. apply filter_ext. intros t.
  f_equal. f_equal. unfold matchesSearch. rewrite H. f_equal. f_equal.
  destruct (String.eqb_spec q "") as [Eq|Nq],
           (String.eqb_spec q' "") as [Eq'|Nq']; try reflexivity; exfalso.
  - apply Nq', toLowerCase_empty. rewrite <- H, Eq. reflexivity.
  - apply Nq, toLowerCase_empty. rewrite H, Eq'. reflexivity.
Qed.

(** X14, witness: "GROCERIES" and "groceries". *)
Lemma search_ignores_case_of_query_witness :
  filteredTasks (tasks twoTasks) "GROCERIES" "all" "all"
  = filteredTasks (tasks twoTasks) "groceries" "all" "all".
Proof.
  apply (search_ignores_case_of_query (tasks twoTasks) "GROCERIES" "groceries").
  reflexivity.
Defined.

(** *** The loops that only push *)

Lemma push_fold_lookup (key : Task.t -> string) (l : list Task.t) :
  forall (r : gmap string (list Task.t)) (k : string),
  fold_left (fun result task => push (key task) task result) l r !! k =
  (fun b => b ++ List.filter (fun t => String.eqb (key t) k) l) <$> r !! k.
Proof.
  induction l as [|t l IH]; intros r k; cbn [fold_left List.filter].
  - destruct (r !! k); cbn; [rewrite app_nil_r|]; reflexivity.
  - rewrite IH. unfold push.
    destruct (String.eqb_spec (key t) k) as [->|Hk].
    + rewrite lookup_alter_eq. destruct (r !! k); cbn; [|reflexivity].
      rewrite <- app_assoc. reflexivity.
    + rewrite lookup_alter_ne by exact Hk. reflexivity.
Qed.

Lemma filter_partition_length {A} (f : A -> bool) (l : list A) :
  (length (List.filter f l) + length (List.filter (fun x => negb (f x)) l)
   = length l)%nat.
Proof. induction l as [|x l IH]; cbn; [reflexivity|]. destruct (f x); cbn; lia. Qed.

Lemma has_status_spec st t : has_status st t = true <-> Task.status t = st.
Proof. unfold has_status. destruct (Task.status t), st; cbn; split; congruence. Qed.

Lemma groupByStatus_lookup l k :
  groupByStatus l !! k =
  if String.eqb k "todo" then Some (List.filter (has_status todo) l)
  else if String.eqb k "in-progress"
       then Some (List.filter (has_status in_progress) l)
  else if String.eqb k "completed"
       then Some (List.filter (has_status completed) l)
  else None.
Proof.
  unfold groupByStatus.
  destruct (String.eqb_spec k "todo") as [->|H1]; [apply lookup_insert_eq|].
  rewrite lookup_insert_ne by congruence.
  destruct (String.eqb_spec k "in-progress") as [->|H2]; [apply lookup_insert_eq|].
  rewrite lookup_insert_ne by congruence.
  destruct (String.eqb_spec k "completed") as [->|H3]; [apply lookup_insert_eq|].
  rewrite lookup_insert_ne by congruence. apply lookup_empty.
Qed.

Lemma status_lengths l :
  (length (List.filter (has_status todo) l)
   + length (List.filter (has_status in_progress) l)
   + length (List.filter (has_status completed) l) = length l)%nat.
Proof.
  induction l as [|t l IH]; cbn [List.filter length]; [reflexivity|].
  assert (H : forall st,
             has_status st t =
             match Task.status t, st with
             | todo, todo | in_progress, in_progress
             | completed, completed => true
             | _, _ => false
             end).
  { intros st. unfold has_status. destruct (Task.status t), st; reflexivity. }
  rewrite !H. destruct (Task.status t); cbn [length]; lia.
Qed.

(** X16.  The status mode always has the three buckets ["todo"],
    ["in-progress"] and ["completed"] and no other; a task is in the bucket
    of a status exactly when it is a filtered task with that status; each
    bucket keeps the order of the filtered list, and the three sizes add up
    to its length. *)
Theorem groupByStatus_partitions (l : list Task.t) :
  let g := groupByStatus l in
  (forall k, is_Some (g !! k) <->
             k = "todo" \/ k = "in-progress" \/ k = "completed") /\
  (forall st t, t ∈ bucket g (Status_str st) <-> t ∈ l /\ Task.status t = st) /\
  (forall st, sublist (bucket g (Status_str st)) l) /\
  (length (bucket g "todo") + length (bucket g "in-progress")
   + length (bucket g "completed") = length l)%nat.
Proof.
  cbn zeta. unfold bucket. split; [|split; [|split]].
  - intros k. rewrite groupByStatus_lookup.
    destruct (String.eqb_spec k "todo"); [split; eauto|].
    destruct (String.eqb_spec k "in-progress"); [split; eauto|].
    destruct (String.eqb_spec k "completed"); [split; eauto|].
    split; [intros [? H]; discriminate|intros [?|[?|?]]; contradiction].
  - intros st t. rewrite groupByStatus_lookup.
    destruct st; cbn;
      rewrite list_elem_of_In, filter_In, <- list_elem_of_In, has_status_spec;
      reflexivity.
  - intros st. rewrite groupByStatus_lookup.
    destruct st; cbn; apply List_filter_sublist.
  - rewrite !groupByStatus_lookup. cbn. apply status_lengths.
Qed.

(** *** Date mode *)

Lemma dateBucket_key tz today tomorrow t :
  dateBucket tz today tomorrow t ∈ dateKeys.
Proof.
  unfold dateBucket, dateKeys. destruct (Task.dueDate t); [|by_decision].
  destruct (_ && _); [by_decision|].
  destruct (getTime_eqb _ today); [by_decision|].
  destruct (getTime_eqb _ tomorrow); by_decision.
Qed.

Lemma groupByDate_lookup tz now l k :
  groupByDate tz now l !! k =
  if bool_decide (k ∈ dateKeys)
  then Some (List.filter
               (fun t => String.eqb
                           (dateBucket tz (setHours0 tz (ValidDate now))
                              (nextDay (setHours0 tz (ValidDate now))) t) k) l)
  else None.
Proof.
  unfold groupByDate. rewrite push_fold_lookup.
  destruct (bool_decide (k ∈ dateKeys)) eqn:E.
  - apply bool_decide_eq_true in E. unfold dateKeys in E.
    repeat (apply elem_of_cons in E as [->|E]; [reflexivity|]).
    inversion E.
  - apply bool_decide_eq_false in E.
    rewrite !lookup_insert_ne by (intros <-; apply E; by_decision).
    rewrite lookup_empty. reflexivity.
Qed.

Lemma date_lengths (key : Task.t -> string) (l : list Task.t) :
  (forall t, key t ∈ dateKeys) ->
  (length (List.filter (fun t => String.eqb (key t) "overdue") l)
   + length (List.filter (fun t => String.eqb (key t) "today") l)
   + length (List.filter (fun t => String.eqb (key t) "tomorrow") l)
   + length (List.filter (fun t => String.eqb (key t) "upcoming") l)
   + length (List.filter (fun t => String.eqb (key t) "no-date") l)
   = length l)%nat.
Proof.
  intros Hk. induction l as [|t l IH]; cbn [List.filter length]; [reflexivity|].
  pose proof (Hk t) as H. unfold dateKeys in H.
  repeat (apply elem_of_cons in H as [->|H]; [cbn; lia|]).
  inversion H.
Qed.

(** X17.  The date mode always has the five buckets ["overdue"], ["today"],
    ["tomorrow"], ["upcoming"] and ["no-date"] and no other; each filtered
    task is in exactly the bucket [dateBucket] names, ["no-date"] holding
    exactly the tasks without a due date; each bucket keeps the order of
    the filtered list, and the five sizes add up to its length. *)
Theorem groupByDate_partitions (tz now : Z) (l : list Task.t) :
  let today := setHours0 tz (ValidDate now) in
  let g := groupByDate tz now l in
  (forall k, is_Some (g !! k) <-> k ∈ dateKeys) /\
  (forall k t, t ∈ bucket g k <->
               t ∈ l /\ dateBucket tz today (nextDay today) t = k) /\
  (forall k, sublist (bucket g k) l) /\
  (forall t, t ∈ bucket g "no-date" <-> t ∈ l /\ Task.dueDate t = None) /\
  (length (bucket g "overdue") + length (bucket g "today")
   + length (bucket g "tomorrow") + length (bucket g "upcoming")
   + length (bucket g "no-date") = length l)%nat.
Proof.
  cbn zeta. unfold bucket.
  assert (Hmem : forall k t,
    t ∈ default [] (groupByDate tz now l !! k) <->
    t ∈ l /\ dateBucket tz (setHours0 tz (ValidDate now))
                        (nextDay (setHours0 tz (ValidDate now))) t = k).
  { intros k t. rewrite groupByDate_lookup.
    destruct (bool_decide (k ∈ dateKeys)) eqn:E; cbn.
    - rewrite list_elem_of_In, filter_In, <- list_elem_of_In, String.eqb_eq.
      reflexivity.
    - apply bool_decide_eq_false in E. split; [intros H; inversion H|].
      intros [_ <-]. exfalso. apply E, dateBucket_key. }
  split; [|split; [|split; [|split]]].
  - intros k. rewrite groupByDate_lookup.
    destruct (bool_decide (k ∈ dateKeys)) eqn:E.
    + apply bool_decide_eq_true in E. split; eauto.
    + apply bool_decide_eq_false in E.
      split; [intros [? H]; discriminate|contradiction].
  - exact Hmem.
  - intros k. rewrite groupByDate_lookup.
    destruct (bool_decide _); cbn; [apply List_filter_sublist|apply sublist_nil_l].
  - intros t. rewrite Hmem. unfold dateBucket.
    destruct (Task.dueDate t) as [d|]; [|tauto].
    split; [|intros [_ H]; discriminate]. intros [_ H]. exfalso.
    destruct (_ && _); [discriminate|].
    destruct (getTime_eqb _ _); [discriminate|].
    destruct (getTime_eqb _ _); discriminate.
  - rewrite !groupByDate_lookup. cbn [default].
    replace (bool_decide ("overdue" ∈ dateKeys)) with true by reflexivity.
    replace (bool_decide ("today" ∈ dateKeys)) with true by reflexivity.
    replace (bool_decide ("tomorrow" ∈ dateKeys)) with true by reflexivity.
    replace (bool_decide ("upcoming" ∈ dateKeys)) with true by reflexivity.
    replace (bool_decide ("no-date" ∈ dateKeys)) with true by reflexivity.
    cbn [default]. apply date_lengths. intros t. apply dateBucket_key.
Qed.

(** X18.  The bucket of a task with a due date depends only on the local
    days the due time and the current time fall on: ["overdue"] when the due
    day is before today and the task is not completed, ["today"] and
    ["tomorrow"] on those days, and ["upcoming"] when the due day is after
    tomorrow and also when it is before today and the task is completed.
    (For times at least two days inside the range of time values.) *)
Theorem date_bucket_by_local_day (tz now t : Z) (task : Task.t) :
  Z.abs now <= maxTime - 2 * msPerDay ->
  Z.abs t <= maxTime - 2 * msPerDay ->
  Task.dueDate task = Some (ValidDate t) ->
  let today := setHours0 tz (ValidDate now) in
  let b := dateBucket tz today (nextDay today) task in
  let day0 := localDay tz now in
  let day := localDay tz t in
  (b = "overdue" <-> day < day0 /\ Task.status task <> completed) /\
  (b = "today" <-> day = day0) /\
  (b = "tomorrow" <-> day = day0 + 1) /\
  (b = "upcoming" <->
   day0 + 1 < day \/ (day < day0 /\ Task.status task = completed)).
Proof.
  intros Hn Ht Hd today b day0 day. subst today b.
  rewrite (dateBucket_spec tz now t task); try exact Hd.
  2-4: unfold localDay, maxTime, msPerDay in *; Z.div_mod_to_equations; lia.
  fold day0 day.
  assert (Hc : String.eqb (Status_str (Task.status task)) "completed" = true
               <-> Task.status task = completed)
    by (destruct (Task.status task); cbn; split; congruence).
  destruct (String.eqb (Status_str (Task.status task)) "completed").
  - assert (Hs : Task.status task = completed) by (apply Hc; reflexivity).
    rewrite andb_false_r.
    destruct (Z.eqb_spec day day0); destruct (Z.eqb_spec day (day0 + 1));
      repeat split; intros; try discriminate; try lia; try tauto;
      intuition (try lia; try congruence).
    all: destruct (Z.lt_ge_cases day day0); [right; auto|left; lia].
  - assert (Hs : Task.status task <> completed)
      by (intros X; apply Hc in X; discriminate).
    rewrite andb_true_r.
    destruct (Z.ltb_spec day day0);
      destruct (Z.eqb_spec day day0); destruct (Z.eqb_spec day (day0 + 1));
      repeat split; intros; try discriminate; try lia; try tauto;
      intuition (try lia; try congruence).
Qed.

(** X18, witness: the completed task due the day before. *)
Lemma date_bucket_by_local_day_witness :
  dateBucket 0 (setHours0 0 (ValidDate (tick 0)))
             (nextDay (setHours0 0 (ValidDate (tick 0))))
             (dueYesterday completed) = "upcoming".
Proof.
  apply (proj2 (proj2 (proj2 (date_bucket_by_local_day 0 (tick 0) 1699900000000
           (dueYesterday completed) ltac:(vm_compute; discriminate)
           ltac:(vm_compute; discriminate) eq_refl)))).
  right. split; [vm_compute; reflexivity|reflexivity].
Defined.

(** *** Titles *)

Lemma find_category_spec (cats : list Category.t) (k : string) :
  match List.find (fun c => String.eqb (Category.id c) k) cats with
  | Some c => c ∈ cats /\ Category.id c = k
  | None => k ∉ map Category.id cats
  end.
Proof.
  induction cats as [|c cats IH]; cbn; [apply not_elem_of_nil|].
  destruct (String.eqb_spec (Category.id c) k) as [E|E].
  - split; [left|exact E].
  - destruct (List.find _ cats) as [x|].
    + destruct IH. split; [right; assumption|assumption].
    + rewrite not_elem_of_cons. split; [congruence|exact IH].
Qed.

(** X19.  Every bucket that [groupedTasks] produces, in each of the three
    modes, has a title.  In category mode ["none"] is titled "Uncategorized",
    the key of an existing category is titled with the name of a category
    that has this id, and any other key, the one of a dangling reference, is
    titled with the key itself. *)
Theorem every_bucket_has_a_title (tz now : Z) (cats : list Category.t)
    (l : list Task.t) :
  (forall mode k, is_Some (groupedTasks tz mode now cats l !! k) ->
                  is_Some (getColumnTitle mode cats k)) /\
  getColumnTitle category cats "none" = Some "Uncategorized" /\
  (forall k, k <> "none" -> k ∈ map Category.id cats ->
     exists c, c ∈ cats /\ Category.id c = k /\
               getColumnTitle category cats k = Some (Category.name c)) /\
  (forall k, k <> "none" -> k ∉ map Category.id cats ->
     getColumnTitle category cats k = Some k).
Proof.
  split; [|split; [reflexivity|split]].
  - intros mode k [b Hb]. destruct mode; cbn in *.
    + rewrite groupByStatus_lookup in Hb.
      destruct (String.eqb k "todo"); [eauto|].
      destruct (String.eqb k "in-progress"); [eauto|].
      destruct (String.eqb k "completed"); [eauto|discriminate].
    + destruct (String.eqb k "none"); [eauto|].
      destruct (List.find _ cats); eauto.
    + rewrite groupByDate_lookup in Hb.
      destruct (bool_decide (k ∈ dateKeys)) eqn:E; [|discriminate].
      apply bool_decide_eq_true in E. unfold dateKeys in E.
      repeat (apply elem_of_cons in E as [->|E]; [cbn; eauto|]).
      inversion E.
  - intros k Hn Hk. cbn.
    replace (String.eqb k "none") with false
      by (symmetry; apply String.eqb_neq; exact Hn).
    pose proof (find_category_spec cats k) as F.
    destruct (List.find _ cats) as [c|]; [|contradiction].
    exists c. tauto.
  - intros k Hn Hk. cbn.
    replace (String.eqb k "none") with false
      by (symmetry; apply String.eqb_neq; exact Hn).
    pose proof (find_category_spec cats k) as F.
    destruct (List.find _ cats) as [c|]; [|reflexivity].
    destruct F as [Hc <-]. exfalso. apply Hk.
    apply list_elem_of_fmap. eauto.
Qed.

(** X19, witness: the key of a dangling reference. *)
Lemma every_bucket_has_a_title_witness :
  getColumnTitle category defaultCategories "5" = Some "5".
Proof.
  apply (proj2 (proj2 (proj2
    (every_bucket_has_a_title 0 0 defaultCategories [])))).
  - discriminate.
  - by_decision.
Defined.

(** *** The category view after filtering and after deleting *)

Lemma bucketKey_categoryId t c :
  c <> "none" -> bucketKey t = c -> Task.categoryId t = Some c.
Proof.
  unfold bucketKey. destruct (Task.categoryId t) as [[|a d]|]; congruence.
Qed.

Lemma categoryId_bucketKey t c :
  c <> "" -> Task.categoryId t = Some c -> bucketKey t = c.
Proof. unfold bucketKey. intros Hc ->. destruct c; congruence. Qed.

Lemma List_filter_none {A} (f : A -> bool) (l : list A) :
  (forall x, x ∈ l -> f x = false) -> List.filter f l = [].
Proof.
  induction l as [|x l IH]; cbn; intros H; [reflexivity|].
  rewrite (H x) by (left). apply IH. intros y Hy. apply H. right. exact Hy.
Qed.

(** X20.  After filtering by a category (a selection other than ["all"],
    ["none"] and the empty string), every filtered task has that
    [categoryId], and the category mode, its keys being ordinary ones (no
    name inherited from [Object.prototype]), shows all of them, in their
    order, in that one bucket: every other bucket is empty. *)
Theorem filter_by_category_fills_one_bucket (cats : list Category.t)
    (l : list Task.t) (q fp c : string) :
  c <> "all" -> c <> "none" -> c <> "" ->
  ordinary_keys cats (filteredTasks l q fp c) ->
  let f := filteredTasks l q fp c in
  let g := groupByCategory cats f in
  (forall t, t ∈ f -> Task.categoryId t = Some c) /\
  (forall k, k <> c -> bucket g k = []) /\
  bucket g c = f.
Proof.
  intros Ha Hn He _ f g.
  assert (Hf : forall t, t ∈ f -> Task.categoryId t = Some c).
  { intros t Ht. subst f. unfold filteredTasks in Ht.
    apply list_elem_of_In, filter_In in Ht as [_ Ht].
    apply andb_true_iff in Ht as [_ Ht].
    apply matchesCategory_spec in Ht as [?|[[? _]|?]]; [contradiction..|assumption]. }
  split; [exact Hf|]. subst g. unfold bucket. split.
  - intros k Hk. rewrite groupByCategory_lookup.
    destruct (decide _); [|reflexivity]. cbn. unfold bucketOf.
    apply List_filter_none. intros t Ht. apply String.eqb_neq.
    rewrite (categoryId_bucketKey t c He (Hf t Ht)). congruence.
  - rewrite groupByCategory_lookup.
    assert (Hall : bucketOf c f = f).
    { unfold bucketOf. apply List_filter_all. intros t Ht. apply String.eqb_eq.
      apply (categoryId_bucketKey t c He (Hf t Ht)). }
    destruct (decide _) as [_|Hno]; cbn; [exact Hall|].
    destruct f as [|t f']; [reflexivity|]. exfalso. apply Hno. right. right.
    cbn. apply elem_of_cons. left. symmetry.
    apply categoryId_bucketKey; [exact He|]. apply Hf. left.
Qed.

(** X20, witness: filtering by the category ["3"]. *)
Lemma filter_by_category_fills_one_bucket_witness :
  bucket (groupByCategory defaultCategories
            (filteredTasks [danglingTask; fullTask] "" "all" "3")) "3"
  = filteredTasks [danglingTask; fullTask] "" "all" "3".
Proof.
  apply (proj2 (proj2 (filter_by_category_fills_one_bucket defaultCategories
           [danglingTask; fullTask] "" "all" "3"
           ltac:(discriminate) ltac:(discriminate) ltac:(discriminate)
           ltac:(split; by_decision)))).
Defined.

(** X21.  In a state whose category identifiers and [categoryId]s are
    ordinary keys (no name inherited from [Object.prototype]): after a
    category is deleted (its id neither ["none"] nor empty), the category
    mode over the whole collection has no bucket for it, every task that
    referred to it is in the ["none"] bucket with its [categoryId] cleared,
    and no card shows the badge of a category with that id. *)
Theorem deleted_category_leaves_the_view (c : string) (s : State) :
  c <> "none" -> c <> "" ->
  ordinary_keys (categories s) (tasks s) ->
  let s' := deleteCategory c s in
  let g := groupByCategory (categories s') (tasks s') in
  g !! c = None /\
  (forall t, t ∈ tasks s -> Task.categoryId t = Some c ->
             clearCategory t ∈ bucket g "none") /\
  (forall t x, t ∈ tasks s' -> cardCategory (categories s') t = Some x ->
               Category.id x <> c).
Proof.
  intros Hn He _ s' g. subst s' g. cbn [tasks categories deleteCategory].
  split; [|split].
  - rewrite groupByCategory_lookup. apply decide_False.
    intros [?|[H|H]]; [contradiction| |].
    + rewrite category_ids_deleteCategory_filter in H.
      apply list_elem_of_In, filter_In in H as [_ H].
      rewrite String.eqb_refl in H. discriminate.
    + apply list_elem_of_fmap in H as (t' & Hk & Ht').
      symmetry in Hk. apply (bucketKey_categoryId t' c Hn) in Hk.
      apply elem_of_deleteCategory_map in Ht'
        as (u & _ & [[_ ->]|[Hne ->]]); [discriminate|contradiction].
  - intros t Ht Hc. unfold bucket. rewrite groupByCategory_lookup.
    rewrite decide_True by (left; reflexivity). cbn. unfold bucketOf.
    rewrite list_elem_of_In, filter_In, <- list_elem_of_In. split; [|reflexivity].
    unfold deleteCategory_map. apply list_elem_of_fmap. exists t.
    split; [|exact Ht]. unfold categoryId_is. rewrite Hc, String.eqb_refl.
    reflexivity.
  - intros t x _ Hx. unfold cardCategory in Hx.
    destruct (Task.categoryId t) as [cid|]; [|discriminate].
    apply find_some in Hx as [Hx _]. unfold deleteCategory_filter in Hx.
    apply filter_In in Hx as [_ Hx].
    apply negb_true_iff, String.eqb_neq in Hx. exact Hx.
Qed.

(** X21, witness: the category ["3"] of the one task is deleted. *)
Lemma deleted_category_leaves_the_view_witness :
  groupByCategory (categories (deleteCategory "3"
                     (mkState [fullTask] defaultCategories [] 0 0)))
                  (tasks (deleteCategory "3"
                     (mkState [fullTask] defaultCategories [] 0 0)))
  !! "3" = None.
Proof.
  apply (proj1 (deleted_category_leaves_the_view "3"
           (mkState [fullTask] defaultCategories [] 0 0)
           ltac:(discriminate) ltac:(discriminate)
           ltac:(split; by_decision))).
Defined.

Lemma readCategory_toJSON c : readCategory (Category_toJSON c) = Some c.
Proof. destruct c. reflexivity. Qed.

(** X23.  Mounting the provider on what a state saved restores both
    collections of that state, when every date of its tasks is valid; the
    notifications and the counters start afresh. *)
Theorem reload_restores_collections (s : State) :
  Forall Task_dates_valid (tasks s) ->
  mount (Some (saveTasks (tasks s))) (Some (saveCategories (categories s)))
  = Some (mkState (tasks s) (categories s) [] 0 0).
Proof.
  intros H. unfold mount.
  assert (Ht : loadTasks (saveTasks (tasks s)) = Some (tasks s)).
  { unfold loadTasks, saveTasks. apply mapM_Some.
    induction H as [|t l Ht Hl IH]; cbn; constructor; [|exact IH].
    apply rehydrate_Task_toJSON, Ht. }
  assert (Hc : loadCategories (saveCategories (categories s))
               = Some (categories s)).
  { unfold loadCategories, saveCategories. apply mapM_Some.
    induction (categories s) as [|c l IH]; cbn; constructor; [|exact IH].
    apply readCategory_toJSON. }
  rewrite Ht, Hc. reflexivity.
Qed.

(** X23, witness: two tasks and the default categories. *)
Lemma reload_restores_collections_witness :
  mount (Some (saveTasks [fullTask; sampleTask "b" "Pay bills"]))
        (Some (saveCategories defaultCategories))
  = Some (mkState [fullTask; sampleTask "b" "Pay bills"] defaultCategories
                  [] 0 0).
Proof.
  apply (reload_restores_collections
           (mkState [fullTask; sampleTask "b" "Pay bills"] defaultCategories
                    [toast_success "Task added successfully"] 4 2)).
  repeat constructor; cbn; unfold maxTime; lia.
Defined.

Lemma toLowerCase_app s r :
  toLowerCase (s +:+ r) = toLowerCase s +:+ toLowerCase r.
Proof.
  induction s as [|c s IH]; [reflexivity|].
  change (String (toLowerCase_ascii c) (toLowerCase (s +:+ r))
          = String (toLowerCase_ascii c) (toLowerCase s +:+ toLowerCase r)).
  f_equal. exact IH.
Qed.

(** X15.  For text in the Latin-1 range, the strings of this development,
    where lower-casing works unit by unit: any fragment of a task's title,
    or any text with the lower-case form of such a fragment, finds the task
    when both selections are on ["all"]. *)
Theorem search_finds_fragment (l : list Task.t) (q q' : string) (t : Task.t) :
  t ∈ l ->
  occurs_in q' (Task.title t) ->
  toLowerCase q = toLowerCase q' ->
  t ∈ filteredTasks l q "all" "all".
Proof.
  intros Ht (pre & post & Hq) Hl. unfold filteredTasks.
  rewrite list_elem_of_In, filter_In, <- list_elem_of_In. split; [exact Ht|].
  rewrite !andb_true_iff. repeat split.
  apply matchesSearch_spec. right. left.
  exists (toLowerCase pre), (toLowerCase post).
  rewrite Hq, Hl, !toLowerCase_app. reflexivity.
Qed.

(** X15, witness: "GROC" finds "Buy groceries". *)
Lemma search_finds_fragment_witness :
  sampleTask "a" "Buy groceries"
  ∈ filteredTasks (tasks twoTasks) "GROC" "all" "all".
Proof.
  apply (search_finds_fragment (tasks twoTasks) "GROC" "groc"
           (sampleTask "a" "Buy groceries")).
  - apply elem_of_cons. left. reflexivity.
  - exists "Buy ", "eries". reflexivity.
  - reflexivity.
Defined.

Section DateFacts.
Context (clock : nat -> Z) (uuidv4 : nat -> string).
Hypothesis clock_in_range : forall n, Z.abs (clock n) <= maxTime.

Lemma mergeTask_dates_valid t p m :
  dates_safe (UpdateTask (Task.id t) p) ->
  Task_dates_valid t -> Task_dates_valid (mergeTask t p (newDate clock m)).
Proof.
  intros [Hc Hd] (H1 & H2 & H3). unfold Task_dates_valid, mergeTask, spread.
  cbn. split; [|split].
  - destruct (Patch.createdAt p); assumption.
  - apply clock_in_range.
  - destruct (Patch.dueDate p) as [[d|]|]; try assumption; try exact I.
Qed.

Lemma step_keeps_dates_valid op s :
  dates_safe op ->
  Forall Task_dates_valid (tasks s) ->
  Forall Task_dates_valid (tasks (step clock uuidv4 op s)).
Proof.
  intros Hs Hv. destruct op as [task|id p|id|c|id p|id]; cbn in *.
  - apply Forall_app. split; [exact Hv|]. constructor; [|constructor].
    unfold Task_dates_valid. cbn. repeat split; try apply clock_in_range.
    exact Hs.
  - rewrite tasks_updateTask. generalize (reads s).
    induction Hv as [|t l Ht Hl IH]; intros n; cbn; [constructor|].
    destruct (String.eqb (Task.id t) id).
    + specialize (IH (S n)).
      destruct (updateTask_map clock id p l (S n)); cbn in *.
      constructor; [|exact IH]. apply mergeTask_dates_valid; assumption.
    + specialize (IH n). destruct (updateTask_map clock id p l n); cbn in *.
      constructor; assumption.
  - unfold deleteTask_filter. induction Hv as [|t l Ht Hl IH]; cbn; [constructor|].
    destruct (negb _); [constructor|]; assumption.
  - exact Hv.
  - exact Hv.
  - unfold deleteCategory_map.
    induction Hv as [|t l Ht Hl IH]; cbn; constructor; [|exact IH].
    destruct (categoryId_is id t); exact Ht.
Qed.

End DateFacts.

(** X24.  No operation brings in an invalid date of its own: on a clock
    whose readings are valid time values, every sequence of requests whose
    new tasks and patches carry only valid dates leads from tasks with valid
    dates to tasks with valid dates. *)
Theorem dates_stay_valid (clock : nat -> Z) (uuidv4 : nat -> string)
    (s0 s : State) :
  (forall n, Z.abs (clock n) <= maxTime) ->
  Forall Task_dates_valid (tasks s0) ->
  reachable clock uuidv4 (fun op _ => dates_safe op) s0 s ->
  Forall Task_dates_valid (tasks s).
Proof.
  intros Hc H0 R. induction R as [|s op R IH Hs]; [exact H0|].
  apply step_keeps_dates_valid; assumption.
Qed.

(** X24, witness: a task is added and another one marked completed. *)
Lemma dates_stay_valid_witness :
  Forall Task_dates_valid (tasks
    (step frozen letters (UpdateTask "a" (patch_status completed))
       (step frozen letters (AddTask (sampleNew "Buy milk")) twoTasks))).
Proof.
  apply (dates_stay_valid frozen letters twoTasks).
  - intros n. vm_compute. discriminate.
  - repeat constructor; cbn; unfold maxTime; lia.
  - repeat (apply reachable_step); try apply reachable_refl; cbn; auto.
Defined.
